(** * server.py: the player store and its aggregate queries

    A shallow embedding of the six API routes of [server.py] (FastAPI over
    psycopg2) and of the SQL statements they send to the [players] table.

    Layout:
    - Python values, exceptions and the rows a psycopg2 cursor hands back;
    - the [players] table and the eight SQL statements of the source;
    - a state-and-exception monad for one request against the database;
    - the routes, in source order;
    - theorems. *)

From Stdlib Require Import ZArith List String Ascii Bool Lia Sorted Permutation.
Import ListNotations.
Local Open Scope string_scope.
Local Open Scope list_scope.
Local Open Scope Z_scope.

(** ** Python values and exceptions *)

(** Exceptions the routes can see.  [HTTPException] carries its status code
    and its detail; a detail is either a literal of the source or [str(e)]
    of a caught exception, kept symbolic. *)
Inductive exn : Type :=
| HTTPException (status_code : Z) (detail : detail)
| KeyError (key : Z)
| IndexError
| TypeError
| ValueError
| AttributeError
| ValidationError
| OperationalError
| UniqueViolation
| InvalidRowCountInLimitClause
| NumericValueOutOfRange
with detail : Type :=
| Literal (s : string)
| str (e : exn).

(** Values that travel between the driver and the routes. *)
Inductive pyval : Type :=
| PyNone
| PyInt (z : Z)
| PyStr (s : string)
| PyList (l : list string)
| PyDatetime (t : Z)
| PyDecimal (num den : Z)          (* AVG over den rows that sum to num *)
| PyIsoformat (t : Z)              (* t.isoformat() *)
| PyRoundedPercent (num den : Z).  (* round(num / den * 100, 1), a float *)

(** Truth value of [x] in [x or y] and in [if x]. *)
Definition truthy (v : pyval) : bool :=
  match v with
  | PyNone => false
  | PyInt z => negb (z =? 0)
  | PyStr s => negb (String.eqb s "")
  | PyList l => match l with [] => false | _ => true end
  | PyDatetime _ => true
  | PyDecimal n _ => negb (n =? 0)
  | PyIsoformat _ => true
  | PyRoundedPercent n _ => negb (n =? 0)
  end.

Definition py_or (a b : pyval) : pyval := if truthy a then a else b.

(** An integer the routes compute.  PostgreSQL returns an average as a
    numeric rounded to a scale it chooses, and [int()] truncates that; the
    result is kept as [IntOfAvg], not computed. *)
Inductive pyint : Type :=
| AnInt (z : Z)
| IntOfAvg (num den : Z).

(** [int(v)] *)
Definition py_int (v : pyval) : exn + pyint :=
  match v with
  | PyInt z => inr (AnInt z)
  | PyDecimal n d => inr (IntOfAvg n d)
  | _ => inl TypeError
  end.

(** ** Rows of a psycopg2 cursor

    [psycopg2.connect(..., cursor_factory=F)] makes every [conn.cursor()] an
    [F].  The default cursor returns each row as a tuple.
    [psycopg2.extras.RealDictCursor] returns each row as a [RealDictRow], a
    subclass of [dict] whose keys are the column names; such a row has no
    access by position. *)
Inductive CursorFactory : Type := DefaultCursor | RealDictCursor.

(** A result row as SQL produced it: the select list, in order. *)
Definition sqlrow : Type := list (string * pyval).

Inductive pyrow : Type :=
| TupleRow (values : list pyval)
| RealDictRow (items : list (string * pyval)).

Definition make_row (f : CursorFactory) (r : sqlrow) : pyrow :=
  match f with
  | DefaultCursor => TupleRow (map snd r)
  | RealDictCursor => RealDictRow r
  end.

(** [row[i]] for a non-negative integer literal [i], the only subscripts of
    the source.  A tuple is indexed by position; a dict is looked up by key,
    and its keys are the column names, so an integer key is never there. *)
Definition getitem (r : pyrow) (i : nat) : exn + pyval :=
  match r with
  | TupleRow vs =>
      match nth_error vs i with
      | Some v => inr v
      | None => inl IndexError
      end
  | RealDictRow _ => inl (KeyError (Z.of_nat i))
  end.

(** [if row:] - a tuple or a dict is true when it is not empty. *)
Definition row_truthy (r : pyrow) : bool :=
  match r with
  | TupleRow [] => false
  | RealDictRow [] => false
  | _ => true
  end.

(** ** Request and response bodies (the pydantic models) *)

Module PlayerData.
Record t : Type := mk {
    total_money : Z;
    total_clicks : Z;
    best_streak : Z;
    owned_power_ups : list string;
    achievements : list string
  }.
End PlayerData.

Module PlayerResponse.
Record t : Type := mk {
    player_id : string;
    total_money : Z;
    total_clicks : Z;
    best_streak : Z;
    owned_power_ups : list string;
    achievements : list string
  }.
End PlayerResponse.

(** ** The players table *)

(** Modelled from the spec: the CREATE TABLE statement of [players] is not in
    server.py.  The columns follow the spec's logical schema: [player_id] is
    the unique key, the three counters are integers, the two collections are
    string arrays, [created_at] is set when the row is inserted and
    [updated_at] on every mutation.  The columns the routes guard against
    NULL ([x or []], [x if x else None]) are nullable here.  The counters
    are 64-bit integers ([bigint] below) and timestamps are seconds. *)
Module Row.
Record t : Type := mk {
    player_id : string;
    total_money : Z;
    total_clicks : Z;
    best_streak : Z;
    owned_power_ups : option (list string);
    achievements : option (list string);
    created_at : Z;
    updated_at : option Z
  }.
End Row.

(** The table in heap order. *)
Definition Table : Type := list Row.t.

Definition has_id (player_id : string) (r : Row.t) : bool :=
  String.eqb (Row.player_id r) player_id.

Definition unique_ids (t : Table) : Prop := NoDup (map Row.player_id t).

(** How a column value reaches Python. *)
Definition sql_array (a : option (list string)) : pyval :=
  match a with Some l => PyList l | None => PyNone end.

Definition sql_timestamp (u : option Z) : pyval :=
  match u with Some t => PyDatetime t | None => PyNone end.

(** [array_length(a, 1)] is NULL for NULL and for the empty array. *)
Definition array_length (a : option (list string)) : pyval :=
  match a with
  | Some ((_ :: _) as l) => PyInt (Z.of_nat (List.length l))
  | _ => PyNone
  end.

(** *** WHERE total_money > 0 *)
Definition positive (r : Row.t) : bool := 0 <? Row.total_money r.

Definition population (t : Table) : list Row.t := filter positive t.

(** *** ORDER BY total_money DESC, total_clicks DESC

    [outranks a b]: [a] may stand before [b].  Rows equal on both keys are
    left in heap order (SQL leaves their order open). *)
Definition outranks (a b : Row.t) : bool :=
  (Row.total_money b <? Row.total_money a)
  || ((Row.total_money a =? Row.total_money b)
      && (Row.total_clicks b <=? Row.total_clicks a)).

Section OrderBy.
  Context {A : Type} (before : A -> A -> bool).

  (** [r] goes in front of the first row it may stand before. *)
Fixpoint place (r : A) (sorted : list A) : list A :=
  match sorted with
  | [] => [r]
  | x :: rest => if before r x then r :: sorted else x :: place r rest
  end.

Definition order_by (rows : list A) : list A := fold_right place [] rows.
End OrderBy.

Definition order_by_money_clicks (rows : list Row.t) : list Row.t :=
  order_by outranks rows.

(** [enumerate(xs, start)], also ROW_NUMBER() over an ordered list. *)
Fixpoint enumerate {A : Type} (start : Z) (xs : list A) : list (Z * A) :=
  match xs with
  | [] => []
  | x :: rest => (start, x) :: enumerate (start + 1) rest
  end.

(** *** The select lists *)

(** Lines 74 and 93. *)
Definition player_columns (r : Row.t) : sqlrow :=
  [ ("player_id", PyStr (Row.player_id r));
    ("total_money", PyInt (Row.total_money r));
    ("total_clicks", PyInt (Row.total_clicks r));
    ("best_streak", PyInt (Row.best_streak r));
    ("owned_power_ups", sql_array (Row.owned_power_ups r));
    ("achievements", sql_array (Row.achievements r)) ].

(** Lines 194-198, with one hour and one day in seconds. *)
Definition within (span now : Z) (u : option Z) : bool :=
  match u with Some t => now - span <? t | None => false end.

Definition activity_status (now : Z) (u : option Z) : string :=
  if within 3600 now u then "online"
  else if within 86400 now u then "recent"
  else "offline".

(** Lines 185-198. *)
Definition leaderboard_columns (now : Z) (r : Row.t) : sqlrow :=
  [ ("player_id", PyStr (Row.player_id r));
    ("total_money", PyInt (Row.total_money r));
    ("total_clicks", PyInt (Row.total_clicks r));
    ("best_streak", PyInt (Row.best_streak r));
    ("achievement_count", array_length (Row.achievements r));
    ("power_up_count", array_length (Row.owned_power_ups r));
    ("created_at", PyDatetime (Row.created_at r));
    ("updated_at", sql_timestamp (Row.updated_at r));
    ("status", PyStr (activity_status now (Row.updated_at r))) ].

(** Aggregates; SUM, MAX and AVG of no rows are NULL, COUNT is 0. *)
Definition total (l : list Z) : Z := fold_right Z.add 0 l.

Definition sql_count {A : Type} (l : list A) : pyval :=
  PyInt (Z.of_nat (List.length l)).

Definition sql_sum (l : list Z) : pyval :=
  match l with [] => PyNone | _ => PyInt (total l) end.

Definition sql_max (l : list Z) : pyval :=
  match l with [] => PyNone | x :: rest => PyInt (fold_right Z.max x rest) end.

Definition sql_avg (l : list Z) : pyval :=
  match l with
  | [] => PyNone
  | _ => PyDecimal (total l) (Z.of_nat (List.length l))
  end.

(** Lines 248-257. *)
Definition stats_columns (now : Z) (rows : list Row.t) : sqlrow :=
  [ ("total_players", sql_count rows);
    ("total_money_earned", sql_sum (map Row.total_money rows));
    ("total_clicks", sql_sum (map Row.total_clicks rows));
    ("highest_earnings", sql_max (map Row.total_money rows));
    ("most_clicks", sql_max (map Row.total_clicks rows));
    ("best_streak_global", sql_max (map Row.best_streak rows));
    ("avg_money", sql_avg (map Row.total_money rows));
    ("avg_clicks", sql_avg (map Row.total_clicks rows));
    ("active_players",
      sql_count (filter (fun r => within 3600 now (Row.updated_at r)) rows));
    ("daily_active_players",
      sql_count (filter (fun r => within 86400 now (Row.updated_at r)) rows)) ].

(** Line 303. *)
Definition rank_columns (nr : Z * Row.t) : sqlrow :=
  [ ("rank", PyInt (fst nr)); ("total_money", PyInt (Row.total_money (snd nr))) ].

(** *** The statements *)

(** Row written by the INSERT of line 91. *)
Definition new_player (player_id : string) (now : Z) : Row.t :=
  Row.mk player_id 0 0 0 (Some []) (Some []) now (Some now).

(** Row written by the INSERT of line 125. *)
Definition saved_player (player_id : string) (d : PlayerData.t) (now : Z)
  : Row.t :=
  Row.mk player_id
    (PlayerData.total_money d) (PlayerData.total_clicks d)
    (PlayerData.best_streak d)
    (Some (PlayerData.owned_power_ups d)) (Some (PlayerData.achievements d))
    now (Some now).

(** DO UPDATE SET of lines 128-134. *)
Definition overwrite (d : PlayerData.t) (now : Z) (r : Row.t) : Row.t :=
  Row.mk (Row.player_id r)
    (PlayerData.total_money d) (PlayerData.total_clicks d)
    (PlayerData.best_streak d)
    (Some (PlayerData.owned_power_ups d)) (Some (PlayerData.achievements d))
    (Row.created_at r) (Some now).

(** SET of lines 162-163. *)
Definition zeroed (now : Z) (r : Row.t) : Row.t :=
  Row.mk (Row.player_id r) 0 0 0 (Some []) (Some [])
    (Row.created_at r) (Some now).

(** UPDATE ... WHERE player_id = %s.  PostgreSQL writes the new version of
    an updated row as a new tuple: the row leaves its place and is found
    behind the rows that stay. *)
Definition update_where (player_id : string) (f : Row.t -> Row.t) (t : Table)
  : Table :=
  filter (fun r => negb (has_id player_id r)) t
  ++ map f (filter (has_id player_id) t).

Inductive query : Type :=
| SelectPlayer (player_id : string)                       (* lines 73-76 *)
| InsertPlayer (player_id : string)                       (* lines 90-94 *)
| UpsertPlayer (player_id : string) (data : PlayerData.t) (* lines 124-142 *)
| ResetPlayer (player_id : string)                        (* lines 160-165 *)
| SelectLeaderboard (limit : Z)                           (* lines 184-203 *)
| CountPlayers (alias : string)                           (* lines 222, 313 *)
| SelectGlobalStats                                       (* lines 246-260 *)
| SelectRank (player_id : string).                        (* lines 294-306 *)

(** A 64-bit integer column holds [z]. *)
Definition bigint (z : Z) : bool := (- 2 ^ 63 <=? z) && (z <? 2 ^ 63).

(** The three counters of a payload fit their columns. *)
Definition fits (d : PlayerData.t) : bool :=
  bigint (PlayerData.total_money d) && bigint (PlayerData.total_clicks d)
  && bigint (PlayerData.best_streak d).

(** What a statement does on the table it sees: an error, or the table it
    leaves (for a write) and its result rows.  The values of an INSERT are
    converted to the column types before the key is looked at, so a counter
    that does not fit is refused whether or not the player has a row. *)
Definition run_query (q : query) (now : Z) (t : Table)
  : exn + (option Table * list sqlrow) :=
  match q with
  | SelectPlayer player_id =>
      inr (None, map player_columns (filter (has_id player_id) t))
  | InsertPlayer player_id =>
      if existsb (has_id player_id) t then inl UniqueViolation
      else let r := new_player player_id now in
           inr (Some (t ++ [r]), [player_columns r])
  | UpsertPlayer player_id d =>
      if negb (fits d) then inl NumericValueOutOfRange
      else if existsb (has_id player_id) t
      then inr (Some (update_where player_id (overwrite d now) t), [])
      else inr (Some (t ++ [saved_player player_id d now]), [])
  | ResetPlayer player_id =>
      inr (Some (update_where player_id (zeroed now) t), [])
  | SelectLeaderboard limit =>
      if limit <? 0 then inl InvalidRowCountInLimitClause
      else if 2 ^ 63 <=? limit then inl NumericValueOutOfRange
      else inr (None,
                map (leaderboard_columns now)
                  (firstn (Z.to_nat limit)
                     (order_by_money_clicks (population t))))
  | CountPlayers alias =>
      inr (None, [[(alias, sql_count (population t))]])
  | SelectGlobalStats =>
      inr (None, [stats_columns now (population t)])
  | SelectRank player_id =>
      inr (None,
           map rank_columns
             (filter (fun nr => has_id player_id (snd nr))
                (enumerate 1 (order_by_money_clicks (population t)))))
  end.

(** ** One request against the database *)

(** What the driver can send.  psycopg2 turns every parameter into an SQL
    literal before anything goes to the server, and refuses a string that
    holds a NUL character with ValueError; integers of any size pass.  A
    [string] stands for a Python str by its UTF-8 bytes. *)
Fixpoint sendable (s : string) : bool :=
  match s with
  | EmptyString => true
  | String c rest => negb (Ascii.eqb c Ascii.zero) && sendable rest
  end.

(** The string parameters of a statement, in the order of the source. *)
Definition parameters (q : query) : list string :=
  match q with
  | SelectPlayer player_id => [player_id]
  | InsertPlayer player_id => [player_id]
  | UpsertPlayer player_id d =>
      player_id :: PlayerData.owned_power_ups d ++ PlayerData.achievements d
  | ResetPlayer player_id => [player_id]
  | SelectLeaderboard _ => []
  | CountPlayers _ => []
  | SelectGlobalStats => []
  | SelectRank player_id => [player_id]
  end.

Definition adaptable (q : query) : bool := forallb sendable (parameters q).

(** A commit of another session: the same three writes, sent by another
    request. *)
Inductive write : Type :=
| Saved (player_id : string) (data : PlayerData.t)
| Reset (player_id : string)
| Created (player_id : string).

(** The world a request runs in.  [players] is the committed table.
    [incoming] lists, statement by statement, the commits of other sessions
    that land just before this request's next statement (PostgreSQL's
    default isolation lets every statement see what is committed by then).
    [txn] is the table as this session has written it and not yet
    committed (psycopg2 begins the transaction with the first statement;
    only its writes are kept here, which is all a commit, a rollback or a
    close can change) and [cursor_rows] what the cursor has not yet fetched.
    A connection lost after it was opened is outside this model. *)
Record World : Type := mkWorld {
  reachable : bool;
  players : Table;
  db_now : Z;
  app_now : Z;
  incoming : list (list write);
  txn : option Table;
  cursor_rows : list pyrow
}.

Definition set_players (t : Table) (w : World) : World :=
  mkWorld (reachable w) t (db_now w) (app_now w) (incoming w) (txn w)
    (cursor_rows w).

Definition set_incoming (i : list (list write)) (w : World) : World :=
  mkWorld (reachable w) (players w) (db_now w) (app_now w) i (txn w)
    (cursor_rows w).

Definition set_txn (x : option Table) (w : World) : World :=
  mkWorld (reachable w) (players w) (db_now w) (app_now w) (incoming w) x
    (cursor_rows w).

Definition set_cursor_rows (rows : list pyrow) (w : World) : World :=
  mkWorld (reachable w) (players w) (db_now w) (app_now w) (incoming w)
    (txn w) rows.

Definition statement_of (wr : write) : query :=
  match wr with
  | Saved player_id d => UpsertPlayer player_id d
  | Reset player_id => ResetPlayer player_id
  | Created player_id => InsertPlayer player_id
  end.

(** What a write of another session leaves; a write that its driver or
    the server refuses leaves the table as it is. *)
Definition land (now : Z) (t : Table) (wr : write) : Table :=
  if adaptable (statement_of wr)
  then match run_query (statement_of wr) now t with
       | inr (Some t', _) => t'
       | _ => t
       end
  else t.

Definition arrive (w : World) : World :=
  match incoming w with
  | [] => w
  | ws :: later =>
      set_incoming later
        (set_players (fold_left (land (db_now w)) ws (players w)) w)
  end.

(** The monad: state and exceptions. *)
Definition M (A : Type) : Type := World -> (exn + A) * World.

Definition ret {A : Type} (a : A) : M A := fun w => (inr a, w).

Definition raise {A : Type} (e : exn) : M A := fun w => (inl e, w).

Definition bind {A B : Type} (m : M A) (k : A -> M B) : M B :=
  fun w =>
    match m w with
    | (inr a, w') => k a w'
    | (inl e, w') => (inl e, w')
    end.

Notation "x <- m ;; k" := (bind m (fun x => k))
  (at level 61, m at next level, right associativity).
Notation "m ;;; k" := (bind m (fun _ => k))
  (at level 61, right associativity).

Definition lift {A : Type} (r : exn + A) : M A :=
  match r with inr a => ret a | inl e => raise e end.

(** [try: body  except Exception as e: handler e]; every [exn] is an
    [Exception], [HTTPException] too. *)
Definition try_except {A : Type} (body : M A) (handler : exn -> M A) : M A :=
  fun w =>
    match body w with
    | (inl e, w') => handler e w'
    | ok => ok
    end.

(** [try: body  finally: cleanup]. *)
Definition try_finally {A : Type} (body : M A) (cleanup : M unit) : M A :=
  fun w =>
    let (r, w') := body w in
    match cleanup w' with
    | (inr _, w'') => (r, w'')
    | (inl e, w'') => (inl e, w'')
    end.

Fixpoint for_each {A B : Type} (f : A -> M B) (xs : list A) : M (list B) :=
  match xs with
  | [] => ret []
  | x :: rest => y <- f x ;; ys <- for_each f rest ;; ret (y :: ys)
  end.

(** *** The driver *)

Record connection : Type := { cursor_factory : CursorFactory }.
Record cursor : Type := { row_factory : CursorFactory }.

(** [psycopg2.connect(..., cursor_factory=f)]: a new session, with no
    transaction open. *)
Definition psycopg2_connect (f : CursorFactory) : M connection :=
  fun w =>
    if reachable w
    then (inr {| cursor_factory := f |}, set_cursor_rows [] (set_txn None w))
    else (inl OperationalError, w).

(** [conn.cursor()] *)
Definition conn_cursor (conn : connection) : cursor :=
  {| row_factory := cursor_factory conn |}.

(** [cur.execute(q)].  A parameter the driver cannot send raises ValueError
    and nothing reaches the server.  Otherwise the statement runs on what is
    committed by now, or on this session's own writes, and what it writes
    stays pending in [txn]. *)
Definition execute (cur : cursor) (q : query) : M unit :=
  fun w =>
    if adaptable q then
      let w1 := arrive w in
      let seen := match txn w1 with Some t => t | None => players w1 end in
      match run_query q (db_now w1) seen with
      | inl e => (inl e, set_cursor_rows [] w1)
      | inr (written, rows) =>
          let w2 := match written with
                    | Some t => set_txn (Some t) w1
                    | None => w1
                    end in
          (inr tt, set_cursor_rows (map (make_row (row_factory cur)) rows) w2)
      end
    else (inl ValueError, w).

(** [cur.fetchone()]: the next row, or None. *)
Definition fetchone (cur : cursor) : M (option pyrow) :=
  fun w =>
    match cursor_rows w with
    | [] => (inr None, w)
    | r :: rest => (inr (Some r), set_cursor_rows rest w)
    end.

(** [cur.fetchall()] *)
Definition fetchall (cur : cursor) : M (list pyrow) :=
  fun w => (inr (cursor_rows w), set_cursor_rows [] w).

(** [conn.commit()] *)
Definition commit (conn : connection) : M unit :=
  fun w =>
    match txn w with
    | Some t => (inr tt, set_txn None (set_players t w))
    | None => (inr tt, w)
    end.

(** [conn.rollback()] *)
Definition rollback (conn : connection) : M unit :=
  fun w => (inr tt, set_txn None w).

(** [cur.close()] *)
Definition cur_close (cur : cursor) : M unit :=
  fun w => (inr tt, set_cursor_rows [] w).

(** [conn.close()]: what was not committed is lost. *)
Definition conn_close (conn : connection) : M unit :=
  fun w => (inr tt, set_txn None w).

(** [datetime.now()] *)
Definition datetime_now : M Z := fun w => (inr (app_now w), w).

(** [row[i]] where [row] may be None. *)
Definition subscript (row : option pyrow) (i : nat) : M pyval :=
  match row with
  | Some r => lift (getitem r i)
  | None => raise TypeError
  end.

(** [if row:] where [row] may be None. *)
Definition found (row : option pyrow) : bool :=
  match row with Some r => row_truthy r | None => false end.

(** ** Response bodies *)

(** pydantic checks the fields of [PlayerResponse(...)] against lines
    57-63. *)
Definition PlayerResponse_new
  (player_id total_money total_clicks best_streak owned_power_ups
     achievements : pyval) : exn + PlayerResponse.t :=
  match player_id, total_money, total_clicks, best_streak,
        owned_power_ups, achievements with
  | PyStr p, PyInt m, PyInt c, PyInt s, PyList u, PyList a =>
      inr (PlayerResponse.mk p m c s u a)
  | _, _, _, _, _, _ => inl ValidationError
  end.

Module Ack.
Record t : Type := mk { success : bool; message : string }.
End Ack.

Module Entry.
Record t : Type := mk {
    rank : Z;
    player_id : pyval;
    total_money : pyval;
    total_clicks : pyval;
    best_streak : pyval;
    achievement_count : pyval;
    power_up_count : pyval;
    status : pyval;
    last_active : pyval
  }.
End Entry.

Module Leaderboard.
Record t : Type := mk {
    leaderboard : list Entry.t;
    total_players : pyval;
    last_updated : pyval
  }.
End Leaderboard.

Module GlobalStats.
Record t : Type := mk {
    total_players : pyint;
    total_money_earned : pyint;
    total_clicks : pyint;
    highest_earnings : pyint;
    most_clicks : pyint;
    best_streak_global : pyint;
    average_money : pyint;
    average_clicks : pyint;
    active_players : pyint;
    daily_active_players : pyint
  }.
End GlobalStats.

Module Stats.
Record t : Type := mk { global_stats : GlobalStats.t; last_updated : pyval }.
End Stats.

Module Rank.
Record t : Type := mk {
    player_id : string;
    rank : pyval;
    total_players : pyval;
    percentile : pyval;
    earnings : pyval
  }.
End Rank.

(** ** The routes *)

(** Lines 35-47. *)
Definition get_db_connection : M connection :=
  try_except (psycopg2_connect RealDictCursor)
    (fun _ => raise (HTTPException 503 (Literal "Database connection failed"))).

(** The except and finally clauses every route ends with. *)
Definition release (conn : connection) (cur : cursor) : M unit :=
  cur_close cur ;;; conn_close conn.

(** Lines 80-87 and, again, 100-107. *)
Definition player_response (result : option pyrow) : M PlayerResponse.t :=
  player_id <- subscript result 0 ;;
  total_money <- subscript result 1 ;;
  total_clicks <- subscript result 2 ;;
  best_streak <- subscript result 3 ;;
  owned_power_ups <- subscript result 4 ;;
  achievements <- subscript result 5 ;;
  lift (PlayerResponse_new player_id total_money total_clicks best_streak
          (py_or owned_power_ups (PyList [])) (py_or achievements (PyList []))).

(** Lines 70-115: [get_player] once it holds its connection. *)
Definition get_player_on (conn : connection) (player_id : string)
  : M PlayerResponse.t :=
  let cur := conn_cursor conn in
  try_finally
    (try_except
       (execute cur (SelectPlayer player_id) ;;;
        result <- fetchone cur ;;
        if found result then player_response result
        else
          execute cur (InsertPlayer player_id) ;;;
          result <- fetchone cur ;;
          commit conn ;;;
          if found result then player_response result
          else raise (HTTPException 500
                        (Literal "Failed to create new player")))
       (fun e => rollback conn ;;; raise (HTTPException 500 (str e))))
    (release conn cur).

(** Lines 66-115. *)
Definition get_player (player_id : string) : M PlayerResponse.t :=
  conn <- get_db_connection ;; get_player_on conn player_id.

(** Lines 120-151. *)
Definition save_player_on (conn : connection) (player_id : string)
  (data : PlayerData.t) : M Ack.t :=
  let cur := conn_cursor conn in
  try_finally
    (try_except
       (execute cur (UpsertPlayer player_id data) ;;;
        commit conn ;;;
        ret (Ack.mk true "Data saved successfully"))
       (fun e => rollback conn ;;; raise (HTTPException 500 (str e))))
    (release conn cur).

(** Lines 117-151. *)
Definition save_player (player_id : string) (data : PlayerData.t) : M Ack.t :=
  conn <- get_db_connection ;; save_player_on conn player_id data.

(** Lines 156-174. *)
Definition reset_player_on (conn : connection) (player_id : string) : M Ack.t :=
  let cur := conn_cursor conn in
  try_finally
    (try_except
       (execute cur (ResetPlayer player_id) ;;;
        commit conn ;;;
        ret (Ack.mk true "Player data reset successfully"))
       (fun e => rollback conn ;;; raise (HTTPException 500 (str e))))
    (release conn cur).

(** Lines 153-174. *)
Definition reset_player (player_id : string) : M Ack.t :=
  conn <- get_db_connection ;; reset_player_on conn player_id.

(** [t.isoformat()] *)
Definition isoformat (v : pyval) : exn + pyval :=
  match v with
  | PyDatetime t => inr (PyIsoformat t)
  | _ => inl AttributeError
  end.

(** Lines 209-219: the dict of one row. *)
Definition leaderboard_entry (numbered : Z * pyrow) : M Entry.t :=
  let (i, result) := numbered in
  player_id <- lift (getitem result 0) ;;
  total_money <- lift (getitem result 1) ;;
  total_clicks <- lift (getitem result 2) ;;
  best_streak <- lift (getitem result 3) ;;
  achievement_count <- lift (getitem result 4) ;;
  power_up_count <- lift (getitem result 5) ;;
  status <- lift (getitem result 8) ;;
  updated_at <- lift (getitem result 7) ;;
  last_active <- (if truthy updated_at
                  then (updated_at <- lift (getitem result 7) ;;
                        lift (isoformat updated_at))
                  else ret PyNone) ;;
  ret (Entry.mk i player_id total_money total_clicks best_streak
         (py_or achievement_count (PyInt 0)) (py_or power_up_count (PyInt 0))
         status last_active).

(** Lines 179-236.  [logger.error] leaves no trace in the response. *)
Definition get_leaderboard_on (conn : connection) (limit : Z)
  : M Leaderboard.t :=
  let cur := conn_cursor conn in
  try_finally
    (try_except
       (execute cur (SelectLeaderboard limit) ;;;
        results <- fetchall cur ;;
        leaderboard <- for_each leaderboard_entry (enumerate 1 results) ;;
        execute cur (CountPlayers "total_players") ;;;
        total_result <- fetchone cur ;;
        total_players <- (if found total_result then subscript total_result 0
                          else ret (PyInt 0)) ;;
        now <- datetime_now ;;
        ret (Leaderboard.mk leaderboard total_players (PyIsoformat now)))
       (fun e => raise (HTTPException 500 (str e))))
    (release conn cur).

(** Lines 176-236. *)
Definition get_leaderboard (limit : Z) : M Leaderboard.t :=
  conn <- get_db_connection ;; get_leaderboard_on conn limit.

(** [int(v or 0)] of lines 266-275. *)
Definition int_or_0 (v : pyval) : exn + pyint := py_int (py_or v (PyInt 0)).

(** Lines 241-284. *)
Definition get_global_stats_on (conn : connection) : M Stats.t :=
  let cur := conn_cursor conn in
  try_finally
    (try_except
       (execute cur SelectGlobalStats ;;;
        stats <- fetchone cur ;;
        s0 <- subscript stats 0 ;; total_players <- lift (int_or_0 s0) ;;
        s1 <- subscript stats 1 ;; total_money_earned <- lift (int_or_0 s1) ;;
        s2 <- subscript stats 2 ;; total_clicks <- lift (int_or_0 s2) ;;
        s3 <- subscript stats 3 ;; highest_earnings <- lift (int_or_0 s3) ;;
        s4 <- subscript stats 4 ;; most_clicks <- lift (int_or_0 s4) ;;
        s5 <- subscript stats 5 ;; best_streak_global <- lift (int_or_0 s5) ;;
        s6 <- subscript stats 6 ;; average_money <- lift (int_or_0 s6) ;;
        s7 <- subscript stats 7 ;; average_clicks <- lift (int_or_0 s7) ;;
        s8 <- subscript stats 8 ;; active_players <- lift (int_or_0 s8) ;;
        s9 <- subscript stats 9 ;; daily_active_players <- lift (int_or_0 s9) ;;
        now <- datetime_now ;;
        ret (Stats.mk
               (GlobalStats.mk total_players total_money_earned total_clicks
                  highest_earnings most_clicks best_streak_global
                  average_money average_clicks active_players
                  daily_active_players)
               (PyIsoformat now)))
       (fun e => raise (HTTPException 500 (str e))))
    (release conn cur).

(** Lines 238-284. *)
Definition get_global_stats : M Stats.t :=
  conn <- get_db_connection ;; get_global_stats_on conn.

(** Operands of Python's integer arithmetic and comparison. *)
Definition as_int (v : pyval) : exn + Z :=
  match v with PyInt z => inr z | _ => inl TypeError end.

(** Line 317 and the [round(percentile, 1)] of line 323.  The quotient is a
    float and stays symbolic; [round(0, 1)] is the integer 0. *)
Definition rounded_percentile (total : pyval) (result : option pyrow)
  : M pyval :=
  n <- lift (as_int total) ;;
  if 0 <? n
  then (r <- subscript result 0 ;;
        k <- lift (as_int r) ;;
        ret (PyRoundedPercent (n - k) n))
  else ret (PyInt 0).

(** Lines 289-331. *)
Definition get_player_rank_on (conn : connection) (player_id : string)
  : M Rank.t :=
  let cur := conn_cursor conn in
  try_finally
    (try_except
       (execute cur (SelectRank player_id) ;;;
        result <- fetchone cur ;;
        (if found result then ret tt
         else raise (HTTPException 404
                       (Literal "Player not found or no earnings"))) ;;;
        execute cur (CountPlayers "total") ;;;
        total_result <- fetchone cur ;;
        total <- (if found total_result then subscript total_result 0
                  else ret (PyInt 0)) ;;
        percentile <- rounded_percentile total result ;;
        rank <- subscript result 0 ;;
        earnings <- subscript result 1 ;;
        ret (Rank.mk player_id rank total percentile earnings))
       (fun e => raise (HTTPException 500 (str e))))
    (release conn cur).

(** Lines 286-331. *)
Definition get_player_rank (player_id : string) : M Rank.t :=
  conn <- get_db_connection ;; get_player_rank_on conn player_id.

(** A connection as the driver gives it without [cursor_factory]: rows are
    tuples. *)
Definition positional : connection := {| cursor_factory := DefaultCursor |}.

(** A world with the database up and no other session writing. *)
Definition quiet (w : World) : Prop :=
  reachable w = true /\ incoming w = [].

(** ** Vocabulary of the statements and example worlds *)

(** The rows the rank statement returns for [player_id]. *)
Definition ranked_as (player_id : string) (t : Table) : list (Z * Row.t) :=
  filter (fun nr => has_id player_id (snd nr))
    (enumerate 1 (order_by_money_clicks (population t))).

(** The table after the commits [ws] of other sessions. *)
Definition after (ws : list write) (now : Z) (t : Table) : Table :=
  fold_left (land now) ws t.

(** C2 as the spec states it: when the SELECT of line 73 finds no row and
    the row is committed by another session before the INSERT of line 90,
    the player is still returned. *)
Definition falls_back_to_fetch (player_id : string) (w : World) : Prop :=
  forall first second later,
    reachable w = true ->
    incoming w = first :: second :: later ->
    existsb (has_id player_id) (after first (db_now w) (players w)) = false ->
    existsb (has_id player_id)
      (after second (db_now w) (after first (db_now w) (players w))) = true ->
    exists resp, fst (get_player player_id w) = inr resp.

(** A race: the table is empty when the request selects, and player "p" is
    created by another request before it inserts. *)
Definition race : World :=
  mkWorld true [] 7 7 [[]; [Created "p"]] None [].

(** An empty table, the database up, nobody else writing. *)
Definition empty_world : World := mkWorld true [] 1000 1000 [] None [].

(** The table the upsert of lines 124-142 leaves. *)
Definition upserted (player_id : string) (d : PlayerData.t) (now : Z)
  (t : Table) : Table :=
  if existsb (has_id player_id) t
  then update_where player_id (overwrite d now) t
  else t ++ [saved_player player_id d now].

Definition alice_save : PlayerData.t :=
  PlayerData.mk 100 50 5 ["double_tap"] ["first_click"].

(** A table whose only player has NULL in both array columns. *)
Definition null_arrays_row : Row.t := Row.mk "nina" 5 3 1 None None 10 (Some 10).

Definition null_arrays_world : World :=
  mkWorld true [null_arrays_row] 1000 1000 [] None [].

(** Why a request for the leaderboard ends in an error. *)
Definition leaderboard_error (e : exn) : Prop :=
  e = InvalidRowCountInLimitClause \/ e = NumericValueOutOfRange
  \/ e = KeyError 0.

(** alice with 100 coins and bob with 200, as the spec's scenario saves
    them. *)
Definition alice_row : Row.t :=
  Row.mk "alice" 100 50 5 (Some ["double_tap"]) (Some ["first_click"])
    1000 (Some 1000).

Definition bob_row : Row.t :=
  Row.mk "bob" 200 30 2 (Some []) (Some []) 1000 (Some 1000).

Definition two_players : World :=
  mkWorld true [alice_row; bob_row] 1000 1000 [] None [].

Definition or_empty (a : option (list string)) : list string :=
  match a with Some l => l | None => [] end.

(** The record lines 80-87 build from a stored row. *)
Definition response_of (r : Row.t) : PlayerResponse.t :=
  PlayerResponse.mk (Row.player_id r) (Row.total_money r)
    (Row.total_clicks r) (Row.best_streak r)
    (or_empty (Row.owned_power_ups r)) (or_empty (Row.achievements r)).

(** A boolean order read as a relation. *)
Definition Before {A : Type} (before : A -> A -> bool) (a b : A) : Prop :=
  before a b = true.

Definition Outranks : Row.t -> Row.t -> Prop := Before outranks.

Definition length_or_0 (a : option (list string)) : pyval :=
  PyInt (Z.of_nat (List.length (or_empty a))).

(** The dict lines 209-219 build from the row at position [i]. *)
Definition entry_of (now : Z) (nr : Z * Row.t) : Entry.t :=
  let (i, r) := nr in
  Entry.mk i (PyStr (Row.player_id r)) (PyInt (Row.total_money r))
    (PyInt (Row.total_clicks r)) (PyInt (Row.best_streak r))
    (length_or_0 (Row.achievements r)) (length_or_0 (Row.owned_power_ups r))
    (PyStr (activity_status now (Row.updated_at r)))
    (match Row.updated_at r with Some t => PyIsoformat t | None => PyNone end).

(** The rows of the page [limit] asks for. *)
Definition page (limit : Z) (t : Table) : list Row.t :=
  firstn (Z.to_nat limit) (order_by_money_clicks (population t)).

(** ** Vocabulary of the properties of the routes *)

(** [m] keeps [I]: from a world where [I] holds it leaves one where [I]
    holds, whether it returns or raises. *)
Definition preserves {A : Type} (I : World -> Prop) (m : M A) : Prop :=
  forall w, I w -> I (snd (m w)).


(** The committed table is [t], nothing is pending and nobody else
    writes. *)
Definition untouched (t : Table) (w : World) : Prop :=
  players w = t /\ txn w = None /\ incoming w = [].

(** A statement that only reads. *)
Definition reads (q : query) : bool :=
  match q with
  | SelectPlayer _ | SelectLeaderboard _ | CountPlayers _
  | SelectGlobalStats | SelectRank _ => true
  | InsertPlayer _ | UpsertPlayer _ _ | ResetPlayer _ => false
  end.

(** The same world at a later time of the database clock. *)
Definition at_time (now : Z) (w : World) : World :=
  mkWorld (reachable w) (players w) now (app_now w) (incoming w) (txn w)
    (cursor_rows w).

(** A row without its [updated_at]. *)
Definition but_updated_at (r : Row.t) : Row.t :=
  Row.mk (Row.player_id r) (Row.total_money r) (Row.total_clicks r)
    (Row.best_streak r) (Row.owned_power_ups r) (Row.achievements r)
    (Row.created_at r) None.

(** [x] is ahead of [r]: more money, or as much money and more clicks. *)
Definition beats (r x : Row.t) : bool :=
  (Row.total_money r <? Row.total_money x)
  || ((Row.total_money r =? Row.total_money x)
      && (Row.total_clicks r <? Row.total_clicks x)).

(** No two rows agree on both keys of the ordering. *)
Definition no_ties (rows : list Row.t) : Prop :=
  forall a b, In a rows -> In b rows ->
              Row.total_money a = Row.total_money b ->
              Row.total_clicks a = Row.total_clicks b -> a = b.


(** The payload of a player who has nothing. *)
Definition nothing : PlayerData.t := PlayerData.mk 0 0 0 [] [].


(** The database cannot be reached. *)
Definition down : World :=
  mkWorld false [alice_row; bob_row] 2000 2000 [] None [].

(** A player id the driver refuses: it holds a NUL character. *)
Definition nul_id : string := String Ascii.zero "x".

(** The counters of a payload fit a 32-bit column, and so a 64-bit one. *)
Definition small (d : PlayerData.t) : Prop :=
  - 2 ^ 31 <= PlayerData.total_money d < 2 ^ 31
  /\ - 2 ^ 31 <= PlayerData.total_clicks d < 2 ^ 31
  /\ - 2 ^ 31 <= PlayerData.best_streak d < 2 ^ 31.

(** Why a save is refused, if it is: by the driver for a NUL character in
    the id or in an array, else by the server for a counter out of range. *)
Definition refusal (player_id : string) (d : PlayerData.t) : option exn :=
  if negb (adaptable (UpsertPlayer player_id d)) then Some ValueError
  else if negb (fits d) then Some NumericValueOutOfRange
  else None.

(** The identity of a row: its key and its creation time. *)
Definition identity (r : Row.t) : string * Z :=
  (Row.player_id r, Row.created_at r).

(** C9 as the spec states it, for a player without a row: the reset is
    acknowledged and the table is left as it was. *)
Definition reset_of_unknown_succeeds (player_id : string) (w : World) : Prop :=
  quiet w ->
  existsb (has_id player_id) (players w) = false ->
  fst (reset_player player_id w) =
    inr (Ack.mk true "Player data reset successfully")
  /\ players (snd (reset_player player_id w)) = players w.

(** A save the driver and the server take: no NUL character in the id or
    in the arrays, counters that fit a 32-bit column. *)
Definition accepted (player_id : string) (d : PlayerData.t) : Prop :=
  adaptable (UpsertPlayer player_id d) = true /\ small d.

(** A request the driver refused: it answers 500 with the ValueError and the
    table is [t]. *)
Definition refused_by_driver {A : Type} (t : Table) (r : (exn + A) * World)
  : Prop :=
  fst r = inl (HTTPException 500 (str ValueError)) /\ players (snd r) = t.

(** * Theorems *)

(** Runs the statements a route has reached: the monad and the driver are
    unfolded and the world is computed. *)
Ltac run_route :=
  unfold try_finally, try_except, bind, execute, arrive; simpl.

(** ** Lists and the table *)

Lemma filter_nil_existsb {A : Type} (f : A -> bool) (l : list A) :
  filter f l = [] -> existsb f l = false.
Proof.
  induction l as [|x l IH]; simpl; [reflexivity|].
  destruct (f x); [discriminate | exact IH].
Qed.

Lemma existsb_false_filter {A : Type} (f : A -> bool) (l : list A) :
  existsb f l = false -> filter f l = [].
Proof.
  induction l as [|x l IH]; simpl; [reflexivity|].
  destruct (f x); simpl; [discriminate | exact IH].
Qed.

Lemma has_id_iff (player_id : string) (r : Row.t) :
  has_id player_id r = true <-> Row.player_id r = player_id.
Proof. unfold has_id. apply String.eqb_eq. Qed.

Lemma filter_absent_all player_id (t : Table) :
  existsb (has_id player_id) t = false ->
  filter (fun r => negb (has_id player_id r)) t = t.
Proof.
  induction t as [|x t IH]; simpl; [reflexivity|].
  destruct (has_id player_id x); simpl; [discriminate|].
  intros H. now rewrite (IH H).
Qed.

Lemma update_where_absent player_id f t :
  existsb (has_id player_id) t = false -> update_where player_id f t = t.
Proof.
  intros H. unfold update_where.
  rewrite (filter_absent_all _ _ H), (existsb_false_filter _ _ H).
  apply app_nil_r.
Qed.

(** ** What the driver sends *)

Lemma adaptable_id player_id :
  adaptable (SelectPlayer player_id) = sendable player_id
  /\ adaptable (InsertPlayer player_id) = sendable player_id
  /\ adaptable (ResetPlayer player_id) = sendable player_id
  /\ adaptable (SelectRank player_id) = sendable player_id.
Proof.
  unfold adaptable. simpl. rewrite Bool.andb_true_r. auto.
Qed.

Lemma adaptable_upsert player_id d :
  adaptable (UpsertPlayer player_id d) = true -> sendable player_id = true.
Proof.
  unfold adaptable. simpl. intros H.
  apply Bool.andb_true_iff in H. tauto.
Qed.

Lemma small_fits d : small d -> fits d = true.
Proof.
  intros (Hm & Hc & Hs). unfold fits, bigint.
  repeat (apply Bool.andb_true_iff; split);
    try (apply Z.leb_le; lia); apply Z.ltb_lt; lia.
Qed.

(** ** Rows of a RealDictCursor cannot be read by position *)

Lemma getitem_RealDictRow items i :
  getitem (RealDictRow items) i = inl (KeyError (Z.of_nat i)).
Proof. reflexivity. Qed.

(** Whatever the table holds, [get_player] ends in a 500.  An id the driver
    can send is looked up, and on both paths the row read is a dictionary
    and [result[0]] raises KeyError; for an id it cannot send, the first
    [execute] raises ValueError. *)
Lemma get_player_fails player_id w :
  quiet w ->
  fst (get_player player_id w) =
  inl (HTTPException 500
         (str (if sendable player_id then KeyError 0 else ValueError))).
Proof.
  destruct w as [up t now anow inc tx rows]. intros [Hup Hinc].
  simpl in Hup, Hinc. subst up inc.
  unfold get_player, get_db_connection, get_player_on, try_finally,
    try_except, bind, psycopg2_connect, execute, arrive.
  destruct (adaptable_id player_id) as (-> & Hins & _). simpl.
  destruct (sendable player_id) eqn:Hs; [|reflexivity]. simpl.
  destruct (filter (has_id player_id) t) as [|r rs] eqn:E; simpl.
  - unfold try_finally, try_except, bind, execute, arrive.
    rewrite Hins. simpl.
    rewrite (filter_nil_existsb _ _ E). reflexivity.
  - reflexivity.
Qed.
(** ** The ranked population *)

Lemma filter_none {A : Type} (f : A -> bool) (l : list A) :
  (forall x, In x l -> f x = false) -> filter f l = [].
Proof.
  induction l as [|x l IH]; simpl; intros H; [reflexivity|].
  rewrite (H x (or_introl eq_refl)). apply IH. intros y Hy. apply H. now right.
Qed.

Section OrderByFacts.
  Context {A : Type} (before : A -> A -> bool).

Lemma In_place x r l : In x (place before r l) <-> x = r \/ In x l.
Proof.
  induction l as [|y l IH]; simpl.
  - intuition congruence.
  - destruct (before r y); simpl; [intuition congruence|].
    rewrite IH. intuition congruence.
Qed.

Lemma In_order_by x l : In x (order_by before l) <-> In x l.
Proof.
  unfold order_by.
  induction l as [|y l IH]; simpl; [tauto|].
  rewrite In_place, IH. intuition congruence.
Qed.

Lemma place_permutation r l : Permutation (place before r l) (r :: l).
Proof.
  induction l as [|x l IH]; simpl; [reflexivity|].
  destruct (before r x); [reflexivity|].
  rewrite IH. apply perm_swap.
Qed.

Lemma order_by_permutation l : Permutation (order_by before l) l.
Proof.
  unfold order_by.
  induction l as [|x l IH]; simpl; [reflexivity|].
  rewrite place_permutation. now constructor.
Qed.

  Hypothesis before_total : forall a b, before a b = false -> before b a = true.
  Hypothesis before_trans :
    forall a b c, Before before a b -> Before before b c -> Before before a c.

Lemma place_sorted r l :
  StronglySorted (Before before) l ->
  StronglySorted (Before before) (place before r l).
Proof.
  induction 1 as [|x l Hl IH Hx]; simpl.
  - repeat constructor.
  - destruct (before r x) eqn:E.
    + constructor; [constructor; assumption|].
      constructor; [exact E|].
      rewrite Forall_forall in *. intros y Hy.
      apply (before_trans r x y); [exact E | now apply Hx].
    + constructor; [exact IH|].
      rewrite Forall_forall in *. intros y Hy.
      apply In_place in Hy. destruct Hy as [-> | Hy].
      * now apply before_total.
      * now apply Hx.
Qed.

Lemma order_by_sorted l : StronglySorted (Before before) (order_by before l).
Proof.
  unfold order_by.
  induction l as [|x l IH]; simpl; [constructor | now apply place_sorted].
Qed.

  (** Where no two rows tie, the sorted arrangement is the only one: any
      other sorted permutation is the same list. *)
Lemma sorted_permutation_unique l1 l2 :
  (forall a b, In a l1 -> In b l1 ->
               Before before a b -> Before before b a -> a = b) ->
  StronglySorted (Before before) l1 ->
  StronglySorted (Before before) l2 ->
  Permutation l1 l2 ->
  l1 = l2.
Proof.
  revert l2. induction l1 as [|x l1 IH]; intros l2 Hanti H1 H2 Hp.
  - apply Permutation_nil in Hp. now subst.
  - destruct l2 as [|y l2];
      [apply Permutation_sym, Permutation_nil in Hp; discriminate|].
    inversion H1 as [|? ? H1' Hx]; subst.
    inversion H2 as [|? ? H2' Hy]; subst.
    rewrite Forall_forall in Hx, Hy.
    assert (Exy : x = y).
    { assert (Hxin : In x (y :: l2))
        by (eapply Permutation_in; [exact Hp | now left]).
      assert (Hyin : In y (x :: l1))
        by (eapply Permutation_in;
            [apply Permutation_sym; exact Hp | now left]).
      destruct Hxin as [-> | Hxin]; [reflexivity|].
      destruct Hyin as [-> | Hyin]; [reflexivity|].
      apply Hanti; [now left | now right | now apply Hx | now apply Hy]. }
    subst y. f_equal. apply IH; auto.
    + intros a b Ha Hb. apply Hanti; now right.
    + eapply Permutation_cons_inv. exact Hp.
Qed.
End OrderByFacts.

Lemma In_enumerate {A : Type} (l : list A) start n x :
  In (n, x) (enumerate start l) -> In x l.
Proof.
  revert start. induction l as [|y l IH]; simpl; intros start; [tauto|].
  intros [H | H]; [left; congruence | right; eauto].
Qed.

Lemma enumerate_In {A : Type} (l : list A) start x :
  In x l -> exists n, In (n, x) (enumerate start l).
Proof.
  revert start. induction l as [|y l IH]; simpl; intros start; [tauto|].
  intros [H | H].
  - subst. exists start. now left.
  - destruct (IH (start + 1) H) as [n Hn]. exists n. now right.
Qed.

Lemma In_population r t :
  In r (population t) <-> In r t /\ 0 < Row.total_money r.
Proof.
  unfold population, positive. rewrite filter_In, Z.ltb_lt. tauto.
Qed.

Lemma ranked_as_absent player_id t :
  (forall r, In r t -> Row.player_id r = player_id -> Row.total_money r <= 0) ->
  ranked_as player_id t = [].
Proof.
  intros H. apply filter_none. intros [n r] Hin. simpl.
  apply In_enumerate, In_order_by, In_population in Hin.
  destruct Hin as [Hr Hpos].
  destruct (has_id player_id r) eqn:E; [|reflexivity].
  apply has_id_iff in E. specialize (H r Hr E). lia.
Qed.

Lemma ranked_as_present player_id t r :
  In r t -> Row.player_id r = player_id -> 0 < Row.total_money r ->
  ranked_as player_id t <> [].
Proof.
  intros Hr Hid Hpos Hnil.
  assert (Hp : In r (order_by_money_clicks (population t)))
    by (apply In_order_by, In_population; auto).
  destruct (enumerate_In _ 1 _ Hp) as [n Hn].
  assert (Hf : In (n, r) (ranked_as player_id t)).
  { apply filter_In. split; [exact Hn|]. simpl. now apply has_id_iff. }
  rewrite Hnil in Hf. exact Hf.
Qed.

(** ** Player rank *)

(** What [get_player_rank] answers in a quiet world for an id the driver can
    send, by the rows of its first statement. *)
Lemma get_player_rank_quiet player_id w :
  quiet w ->
  sendable player_id = true ->
  fst (get_player_rank player_id w) =
  match ranked_as player_id (players w) with
  | [] => inl (HTTPException 500
                 (str (HTTPException 404
                         (Literal "Player not found or no earnings"))))
  | _ :: _ => inl (HTTPException 500 (str (KeyError 0)))
  end.
Proof.
  destruct w as [up t now anow inc tx rows]. intros [Hup Hinc] Hs.
  simpl in Hup, Hinc. subst up inc.
  unfold get_player_rank, get_db_connection, get_player_rank_on, try_finally,
    try_except, bind, psycopg2_connect, execute, arrive.
  destruct (adaptable_id player_id) as (_ & _ & _ & ->). rewrite Hs. simpl.
  fold (ranked_as player_id t).
  destruct (ranked_as player_id t) as [|r rs]; reflexivity.
Qed.

(** For an id the driver cannot send the rank statement is never sent. *)
Lemma get_player_rank_unsendable player_id w :
  reachable w = true ->
  sendable player_id = false ->
  fst (get_player_rank player_id w) = inl (HTTPException 500 (str ValueError)).
Proof.
  destruct w as [up t now anow inc tx rows]. simpl. intros -> Hs.
  unfold get_player_rank, get_db_connection, get_player_rank_on, try_finally,
    try_except, bind, psycopg2_connect, execute.
  destruct (adaptable_id player_id) as (_ & _ & _ & ->). rewrite Hs.
  reflexivity.
Qed.

(** C1.  A player with no row, or whose rows all have [total_money <= 0], is
    not answered with the 404 the route raises at line 310: the [except
    Exception] of line 326 catches that HTTPException and answers 500, with
    the 404 as its detail.  (For an id that holds a NUL character the
    statement is not even sent, and the 500 carries the driver's
    ValueError.) *)
Theorem rank_of_absent_player_is_500 player_id w :
  quiet w ->
  (forall r, In r (players w) -> Row.player_id r = player_id ->
             Row.total_money r <= 0) ->
  fst (get_player_rank player_id w) =
  inl (HTTPException 500
         (str (if sendable player_id
               then HTTPException 404
                      (Literal "Player not found or no earnings")
               else ValueError))).
Proof.
  intros Hq Habsent. destruct (sendable player_id) eqn:Hs.
  - rewrite (get_player_rank_quiet _ _ Hq Hs),
      (ranked_as_absent _ _ Habsent).
    reflexivity.
  - apply get_player_rank_unsendable; [apply Hq | exact Hs].
Qed.

Lemma rank_of_absent_player_is_500_witness :
  fst (get_player_rank "ghost" empty_world) =
  inl (HTTPException 500
         (str (HTTPException 404 (Literal "Player not found or no earnings")))).
Proof.
  apply (rank_of_absent_player_is_500 "ghost" empty_world).
  - split; reflexivity.
  - intros r [].
Defined.

(** ** Fetch-or-create *)

(** For an id the driver cannot send nothing is looked up and nothing is
    written. *)
Lemma get_player_unsendable player_id w :
  reachable w = true ->
  sendable player_id = false ->
  get_player player_id w =
  (inl (HTTPException 500 (str ValueError)),
   mkWorld true (players w) (db_now w) (app_now w) (incoming w) None []).
Proof.
  destruct w as [up t now anow inc tx rows]. simpl. intros -> Hs.
  unfold get_player, get_db_connection, get_player_on, try_finally,
    try_except, bind, psycopg2_connect, execute.
  destruct (adaptable_id player_id) as (-> & _). rewrite Hs. reflexivity.
Qed.

(** On any connection, a conflicting INSERT ends the request with a 500 that
    carries the driver's error; nothing is fetched again and nothing is
    written. *)
Lemma insert_conflict_on conn player_id w first second later :
  sendable player_id = true ->
  incoming w = first :: second :: later ->
  txn w = None ->
  existsb (has_id player_id) (after first (db_now w) (players w)) = false ->
  existsb (has_id player_id)
    (after second (db_now w) (after first (db_now w) (players w))) = true ->
  get_player_on conn player_id w =
  (inl (HTTPException 500 (str UniqueViolation)),
   mkWorld (reachable w)
     (after second (db_now w) (after first (db_now w) (players w)))
     (db_now w) (app_now w) later None []).
Proof.
  destruct w as [up t now anow inc tx rows]. simpl.
  intros Hs -> -> Hmiss Hhit.
  unfold get_player_on, try_finally, try_except, bind, execute, arrive.
  destruct (adaptable_id player_id) as (-> & Hins & _). rewrite Hs. simpl.
  fold (after first now t).
  rewrite (existsb_false_filter _ _ Hmiss). simpl.
  unfold try_finally, try_except, bind, execute, arrive.
  rewrite Hins, Hs. simpl.
  fold (after second now (after first now t)).
  rewrite Hhit. reflexivity.
Qed.

(** C2, counterexample.  In [race] the insert of "p" conflicts and the
    request answers 500; no player is returned. *)
Lemma race_is_not_recovered : ~ falls_back_to_fetch "p" race.
Proof.
  intros H.
  destruct (H [] [Created "p"] [] eq_refl eq_refl eq_refl eq_refl) as [resp E].
  vm_compute in E. discriminate E.
Qed.

(** C2, amended.  When the SELECT finds no row and the INSERT meets a
    uniqueness conflict, [get_player] rolls back and fails with status 500,
    its detail the driver's error; the table is left as the other sessions
    committed it.  (An id that holds a NUL character cannot meet the
    conflict: its SELECT is not sent, the detail is the driver's ValueError
    and the table is left untouched.) *)
Theorem insert_conflict_is_500 player_id w first second later :
  reachable w = true ->
  incoming w = first :: second :: later ->
  existsb (has_id player_id) (after first (db_now w) (players w)) = false ->
  existsb (has_id player_id)
    (after second (db_now w) (after first (db_now w) (players w))) = true ->
  fst (get_player player_id w) =
    inl (HTTPException 500
           (str (if sendable player_id then UniqueViolation else ValueError)))
  /\ players (snd (get_player player_id w)) =
     (if sendable player_id
      then after second (db_now w) (after first (db_now w) (players w))
      else players w).
Proof.
  intros Hup Hinc Hmiss Hhit. destruct (sendable player_id) eqn:Hs.
  - unfold get_player, get_db_connection, try_except, bind, psycopg2_connect.
    rewrite Hup.
    rewrite (insert_conflict_on _ player_id _ first second later);
      destruct w; simpl in *; auto.
  - rewrite (get_player_unsendable _ _ Hup Hs). split; reflexivity.
Qed.

Lemma insert_conflict_is_500_witness :
  fst (get_player "p" race) = inl (HTTPException 500 (str UniqueViolation))
  /\ players (snd (get_player "p" race)) =
     after [Created "p"] (db_now race) (after [] (db_now race) (players race)).
Proof.
  apply (insert_conflict_is_500 "p" race [] [Created "p"] []); reflexivity.
Defined.

(** The world a quiet request for an unseen player leaves: the zero row is
    committed before the response is built. *)
Lemma get_player_creates player_id w :
  quiet w ->
  sendable player_id = true ->
  existsb (has_id player_id) (players w) = false ->
  snd (get_player player_id w) =
  mkWorld true (players w ++ [new_player player_id (db_now w)])
    (db_now w) (app_now w) [] None [].
Proof.
  destruct w as [up t now anow inc tx rows]. intros [Hup Hinc] Hs Hnew.
  simpl in Hup, Hinc, Hnew. subst up inc.
  unfold get_player, get_db_connection, get_player_on, try_finally,
    try_except, bind, psycopg2_connect, execute, arrive.
  destruct (adaptable_id player_id) as (-> & Hins & _). rewrite Hs. simpl.
  rewrite (existsb_false_filter _ _ Hnew). simpl.
  unfold try_finally, try_except, bind, execute, arrive.
  rewrite Hins, Hs. simpl.
  rewrite Hnew. reflexivity.
Qed.

(** C3.  For an unseen player the zero row is inserted and committed, but
    the record is not returned: the row read back is a dictionary, line 101
    raises KeyError and the request answers 500; so does a second fetch.
    (For an id that holds a NUL character nothing is inserted, and both
    requests answer 500 with the driver's ValueError.) *)
Theorem get_player_unseen_is_500 player_id w :
  quiet w ->
  existsb (has_id player_id) (players w) = false ->
  fst (get_player player_id w) =
    inl (HTTPException 500
           (str (if sendable player_id then KeyError 0 else ValueError)))
  /\ players (snd (get_player player_id w)) =
     (if sendable player_id
      then players w ++ [new_player player_id (db_now w)]
      else players w)
  /\ fst (get_player player_id (snd (get_player player_id w))) =
     inl (HTTPException 500
            (str (if sendable player_id then KeyError 0 else ValueError))).
Proof.
  intros Hq Hnew. split; [now apply get_player_fails|].
  destruct (sendable player_id) eqn:Hs.
  - rewrite (get_player_creates _ _ Hq Hs Hnew). split; [reflexivity|].
    rewrite get_player_fails by (split; reflexivity). now rewrite Hs.
  - destruct Hq as [Hup Hinc].
    rewrite (get_player_unsendable _ _ Hup Hs). split; [reflexivity|].
    rewrite get_player_fails by (split; [reflexivity | exact Hinc]).
    now rewrite Hs.
Qed.

Lemma get_player_unseen_is_500_witness :
  fst (get_player "alice" empty_world) =
    inl (HTTPException 500 (str (KeyError 0)))
  /\ players (snd (get_player "alice" empty_world)) =
     players empty_world ++ [new_player "alice" (db_now empty_world)]
  /\ fst (get_player "alice" (snd (get_player "alice" empty_world))) =
     inl (HTTPException 500 (str (KeyError 0))).
Proof.
  apply (get_player_unseen_is_500 "alice" empty_world);
    [split; reflexivity | reflexivity].
Defined.

(** ** Save *)

Lemma refusal_none player_id d :
  refusal player_id d = None ->
  adaptable (UpsertPlayer player_id d) = true /\ fits d = true.
Proof.
  unfold refusal.
  destruct (adaptable (UpsertPlayer player_id d)); simpl; [|discriminate].
  destruct (fits d); simpl; [auto | discriminate].
Qed.

Lemma refusal_none_sendable player_id d :
  refusal player_id d = None -> sendable player_id = true.
Proof.
  intros H. apply refusal_none in H. destruct H as [H _].
  now apply adaptable_upsert in H.
Qed.

Lemma save_player_on_quiet conn player_id d w :
  refusal player_id d = None ->
  incoming w = [] ->
  txn w = None ->
  save_player_on conn player_id d w =
  (inr (Ack.mk true "Data saved successfully"),
   mkWorld (reachable w) (upserted player_id d (db_now w) (players w))
     (db_now w) (app_now w) [] None []).
Proof.
  destruct w as [up t now anow inc tx rows]. simpl. intros Hr -> ->.
  destruct (refusal_none _ _ Hr) as [Ha Hf].
  unfold save_player_on, try_finally, try_except, bind, execute, arrive,
    upserted.
  rewrite Ha. cbn -[fits]. rewrite Hf. simpl.
  destruct (existsb (has_id player_id) t); reflexivity.
Qed.

(** What a save answers and leaves in a quiet world: a payload the driver
    and the server accept is acknowledged and stored; a refused one is
    answered 500 with the error, and the table is left as it was. *)
Lemma save_player_quiet player_id d w :
  quiet w ->
  save_player player_id d w =
  (match refusal player_id d with
   | None => inr (Ack.mk true "Data saved successfully")
   | Some e => inl (HTTPException 500 (str e))
   end,
   mkWorld true
     (match refusal player_id d with
      | None => upserted player_id d (db_now w) (players w)
      | Some _ => players w
      end)
     (db_now w) (app_now w) [] None []).
Proof.
  destruct w as [up t now anow inc tx rows]. intros [Hup Hinc].
  simpl in Hup, Hinc. subst up inc.
  unfold save_player, get_db_connection, try_except, bind, psycopg2_connect.
  cbn [reachable].
  destruct (refusal player_id d) as [e |] eqn:Hr.
  - unfold refusal in Hr. unfold save_player_on, try_finally, try_except,
      bind, execute, arrive.
    destruct (adaptable (UpsertPlayer player_id d)); simpl in Hr.
    + cbn -[fits]. destruct (fits d); simpl in Hr; [discriminate|].
      injection Hr as <-. reflexivity.
    + injection Hr as <-. reflexivity.
  - rewrite (save_player_on_quiet _ _ _ _ Hr); reflexivity.
Qed.

(** Every row of the saved player holds the payload. *)
Lemma upserted_rows player_id d now t r :
  In r (upserted player_id d now t) ->
  Row.player_id r = player_id ->
  Row.total_money r = PlayerData.total_money d
  /\ Row.total_clicks r = PlayerData.total_clicks d
  /\ Row.best_streak r = PlayerData.best_streak d
  /\ Row.owned_power_ups r = Some (PlayerData.owned_power_ups d)
  /\ Row.achievements r = Some (PlayerData.achievements d).
Proof.
  unfold upserted. destruct (existsb (has_id player_id) t) eqn:E.
  - unfold update_where. rewrite in_app_iff, filter_In, in_map_iff.
    intros [[_ Hn] | [x [Hx _]]] Hid.
    + apply has_id_iff in Hid. rewrite Hid in Hn. discriminate.
    + subst r. simpl. repeat split.
  - rewrite in_app_iff. intros [Hin | [Hin | []]] Hid.
    + exfalso. apply Bool.not_true_iff_false in E. apply E.
      apply existsb_exists. exists r. split; [exact Hin|].
      now apply has_id_iff.
    + subst r. simpl. repeat split.
Qed.

(** ... and there is such a row. *)
Lemma upserted_present player_id d now t :
  existsb (has_id player_id) (upserted player_id d now t) = true.
Proof.
  unfold upserted. destruct (existsb (has_id player_id) t) eqn:E.
  - apply existsb_exists in E. destruct E as [x [Hx Hid]].
    apply existsb_exists. exists (overwrite d now x). split.
    + unfold update_where. apply in_app_iff. right. apply in_map.
      apply filter_In. auto.
    + unfold has_id in *. exact Hid.
  - rewrite existsb_app. simpl. unfold has_id at 2. simpl.
    rewrite String.eqb_refl. apply Bool.orb_true_iff. right. reflexivity.
Qed.

(** C4.  A save is acknowledged and stores the payload, but the fetch that
    follows does not return it: line 81 reads a dictionary row by position
    and the request answers 500.  (A payload the driver or the server
    refuses is not stored: the save itself answers 500, and so does the
    fetch.) *)
Theorem save_then_fetch_is_500 player_id d w :
  quiet w ->
  match refusal player_id d with
  | None =>
      fst (save_player player_id d w) =
        inr (Ack.mk true "Data saved successfully")
      /\ existsb (has_id player_id)
           (players (snd (save_player player_id d w))) = true
  | Some e =>
      fst (save_player player_id d w) = inl (HTTPException 500 (str e))
  end
  /\ fst (get_player player_id (snd (save_player player_id d w))) =
     inl (HTTPException 500
            (str (if sendable player_id then KeyError 0 else ValueError))).
Proof.
  intros Hq. rewrite (save_player_quiet _ _ _ Hq). cbn [fst snd]. split.
  - destruct (refusal player_id d); [reflexivity|].
    split; [reflexivity | apply upserted_present].
  - apply get_player_fails. split; reflexivity.
Qed.

Lemma save_then_fetch_is_500_witness :
  fst (save_player "alice" alice_save empty_world) =
    inr (Ack.mk true "Data saved successfully")
  /\ existsb (has_id "alice")
       (players (snd (save_player "alice" alice_save empty_world))) = true
  /\ fst (get_player "alice" (snd (save_player "alice" alice_save empty_world)))
     = inl (HTTPException 500 (str (KeyError 0))).
Proof.
  destruct (save_then_fetch_is_500 "alice" alice_save empty_world)
    as [[H1 H2] H3]; [split; reflexivity|].
  exact (conj H1 (conj H2 H3)).
Defined.

(** C10.  A stored player whose array columns are NULL is not answered with
    empty lists: the request fails at [result[0]], before line 85 reaches
    [result[4] or []], and answers 500.  (A stored id can be sent, so the
    detail is the KeyError; an id that could not be sent would be refused
    with ValueError.) *)
Theorem get_player_null_arrays_is_500 player_id w r :
  quiet w ->
  In r (players w) ->
  Row.player_id r = player_id ->
  Row.owned_power_ups r = None \/ Row.achievements r = None ->
  fst (get_player player_id w) =
  inl (HTTPException 500
         (str (if sendable player_id then KeyError 0 else ValueError))).
Proof.
  intros Hq _ _ _. now apply get_player_fails.
Qed.

Lemma get_player_null_arrays_is_500_witness :
  fst (get_player "nina" null_arrays_world) =
  inl (HTTPException 500 (str (KeyError 0))).
Proof.
  apply (get_player_null_arrays_is_500 "nina" null_arrays_world null_arrays_row).
  - split; reflexivity.
  - left; reflexivity.
  - reflexivity.
  - left; reflexivity.
Defined.

(** ** Leaderboard and statistics *)

(** With the database up, [get_leaderboard] never returns a page: a bad
    limit is refused by the statement, a non-empty page fails at line 211
    and an empty one at line 224, both reading a dictionary by position. *)
Lemma get_leaderboard_fails limit w :
  reachable w = true ->
  exists e, fst (get_leaderboard limit w) = inl (HTTPException 500 (str e))
            /\ leaderboard_error e.
Proof.
  destruct w as [up t now anow inc tx rows]. simpl. intros ->.
  unfold get_leaderboard, get_db_connection, get_leaderboard_on, try_finally,
    try_except, bind, psycopg2_connect, execute, arrive, leaderboard_error.
  destruct inc as [|ws [|ws2 later]]; cbn -[Z.pow order_by_money_clicks];
    (destruct (limit <? 0); [eexists; split; [reflexivity | auto]|]);
    (destruct (2 ^ 63 <=? limit); [eexists; split; [reflexivity | auto]|]);
    cbn -[order_by_money_clicks];
    match goal with
    | |- context [firstn ?n ?l] => destruct (firstn n l) as [|r rs]
    end;
    cbn; eexists; split; try reflexivity; auto.
Qed.

Lemma get_global_stats_fails w :
  reachable w = true ->
  fst (get_global_stats w) = inl (HTTPException 500 (str (KeyError 0))).
Proof.
  destruct w as [up t now anow inc tx rows]. simpl. intros ->.
  unfold get_global_stats, get_db_connection, get_global_stats_on,
    try_finally, try_except, bind, psycopg2_connect, execute, arrive.
  destruct inc as [|ws later]; reflexivity.
Qed.

(** C5.  Whatever the table and the limit, no leaderboard is returned, so
    there are no rows to be positive, ordered, ranked or counted: the
    request answers 500. *)
Theorem leaderboard_is_500 limit w :
  quiet w ->
  exists e, fst (get_leaderboard limit w) = inl (HTTPException 500 (str e))
            /\ leaderboard_error e.
Proof.
  intros [Hup _]. now apply get_leaderboard_fails.
Qed.

Lemma leaderboard_is_500_witness :
  exists e, fst (get_leaderboard 10 two_players) =
            inl (HTTPException 500 (str e))
            /\ leaderboard_error e.
Proof.
  apply (leaderboard_is_500 10 two_players). split; reflexivity.
Defined.

(** C6.  A player of the positive-earnings population is not answered with
    rank, population, earnings and percentile: line 315 reads the count row
    by position and the request answers 500.  (A stored id can be sent, so
    the detail is the KeyError; an id that could not be sent would be
    refused with ValueError.) *)
Theorem rank_of_present_player_is_500 player_id w r :
  quiet w ->
  In r (players w) ->
  Row.player_id r = player_id ->
  0 < Row.total_money r ->
  fst (get_player_rank player_id w) =
  inl (HTTPException 500
         (str (if sendable player_id then KeyError 0 else ValueError))).
Proof.
  intros Hq Hr Hid Hpos. destruct (sendable player_id) eqn:Hs.
  - rewrite (get_player_rank_quiet _ _ Hq Hs).
    pose proof (ranked_as_present _ _ _ Hr Hid Hpos) as Hne.
    destruct (ranked_as player_id (players w)); [congruence | reflexivity].
  - apply get_player_rank_unsendable; [apply Hq | exact Hs].
Qed.

Lemma rank_of_present_player_is_500_witness :
  fst (get_player_rank "alice" two_players) =
  inl (HTTPException 500 (str (KeyError 0))).
Proof.
  apply (rank_of_present_player_is_500 "alice" two_players alice_row).
  - split; reflexivity.
  - left; reflexivity.
  - reflexivity.
  - reflexivity.
Defined.

(** C7.  Neither view is ever returned, so no leaderboard rank and no
    player rank exist to agree: the leaderboard request and the rank request
    both answer 500. *)
Theorem leaderboard_and_rank_are_500 player_id limit w :
  quiet w ->
  (exists e, fst (get_leaderboard limit w) = inl (HTTPException 500 (str e)))
  /\ (exists e,
        fst (get_player_rank player_id w) = inl (HTTPException 500 (str e))).
Proof.
  intros Hq. split.
  - destruct Hq as [Hup _].
    destruct (get_leaderboard_fails limit w Hup) as [e [He _]]. eauto.
  - destruct (sendable player_id) eqn:Hs.
    + rewrite (get_player_rank_quiet _ _ Hq Hs).
      destruct (ranked_as player_id (players w)); eauto.
    + rewrite (get_player_rank_unsendable _ _ (proj1 Hq) Hs). eauto.
Qed.

Lemma leaderboard_and_rank_are_500_witness :
  (exists e, fst (get_leaderboard 10 two_players) =
             inl (HTTPException 500 (str e)))
  /\ (exists e, fst (get_player_rank "bob" two_players) =
                inl (HTTPException 500 (str e))).
Proof.
  apply (leaderboard_and_rank_are_500 "bob" 10 two_players). split; reflexivity.
Defined.

(** C8.  With nobody in the positive-earnings population the statistics are
    not returned as zeros: line 266 reads the aggregate row by position and
    the request answers 500. *)
Theorem stats_of_empty_population_is_500 w :
  quiet w ->
  population (players w) = [] ->
  fst (get_global_stats w) = inl (HTTPException 500 (str (KeyError 0))).
Proof.
  intros [Hup _] _. now apply get_global_stats_fails.
Qed.

Lemma stats_of_empty_population_is_500_witness :
  fst (get_global_stats empty_world) =
  inl (HTTPException 500 (str (KeyError 0))).
Proof.
  apply (stats_of_empty_population_is_500 empty_world);
    [split; reflexivity | reflexivity].
Defined.

(** ** Reset *)

Lemma reset_player_quiet player_id w :
  quiet w ->
  sendable player_id = true ->
  reset_player player_id w =
  (inr (Ack.mk true "Player data reset successfully"),
   mkWorld true (update_where player_id (zeroed (db_now w)) (players w))
     (db_now w) (app_now w) [] None []).
Proof.
  destruct w as [up t now anow inc tx rows]. intros [Hup Hinc] Hs.
  simpl in Hup, Hinc. subst up inc.
  unfold reset_player, get_db_connection, reset_player_on, try_finally,
    try_except, bind, psycopg2_connect, execute, arrive.
  destruct (adaptable_id player_id) as (_ & _ & -> & _). rewrite Hs.
  reflexivity.
Qed.

(** For an id the driver cannot send the UPDATE is never sent. *)
Lemma reset_player_unsendable player_id w :
  reachable w = true ->
  sendable player_id = false ->
  reset_player player_id w =
  (inl (HTTPException 500 (str ValueError)),
   mkWorld true (players w) (db_now w) (app_now w) (incoming w) None []).
Proof.
  destruct w as [up t now anow inc tx rows]. simpl. intros -> Hs.
  unfold reset_player, get_db_connection, reset_player_on, try_finally,
    try_except, bind, psycopg2_connect, execute.
  destruct (adaptable_id player_id) as (_ & _ & -> & _). rewrite Hs.
  reflexivity.
Qed.

Lemma filter_partition {A : Type} (f : A -> bool) l :
  Permutation (filter (fun x => negb (f x)) l ++ filter f l) l.
Proof.
  induction l as [|x l IH]; simpl; [constructor|].
  destruct (f x); simpl.
  - apply Permutation_sym, Permutation_cons_app, Permutation_sym, IH.
  - now constructor.
Qed.

(** An update that keeps key and creation time keeps the identities of the
    rows, whatever place the new versions take. *)
Lemma update_where_identity player_id f t :
  (forall x, identity (f x) = identity x) ->
  Permutation (map identity (update_where player_id f t)) (map identity t).
Proof.
  intros Hf. unfold update_where. rewrite map_app, map_map.
  rewrite (map_ext (fun x => identity (f x)) identity Hf).
  rewrite <- map_app. apply Permutation_map, filter_partition.
Qed.

Lemma update_where_others player_id f t r :
  (forall x, Row.player_id (f x) = Row.player_id x) ->
  Row.player_id r <> player_id ->
  In r (update_where player_id f t) <-> In r t.
Proof.
  intros Hf Hr. unfold update_where.
  rewrite in_app_iff, filter_In, in_map_iff. split.
  - intros [[Hin _] | [x [Hx Hin]]]; [exact Hin|].
    apply filter_In in Hin. destruct Hin as [_ Hid].
    exfalso. apply Hr. subst r. rewrite Hf. now apply has_id_iff.
  - intros Hin. left. split; [exact Hin|].
    destruct (has_id player_id r) eqn:E; [|reflexivity].
    apply has_id_iff in E. contradiction.
Qed.

Lemma update_where_rows player_id f t r :
  In r (update_where player_id f t) ->
  Row.player_id r = player_id ->
  exists x, In x t /\ Row.player_id x = player_id /\ r = f x.
Proof.
  unfold update_where. rewrite in_app_iff, filter_In, in_map_iff.
  intros [[_ Hn] | [x [Hx Hin]]] Hid.
  - apply has_id_iff in Hid. rewrite Hid in Hn. discriminate.
  - apply filter_In in Hin. destruct Hin as [Hin Hx'].
    exists x. split; [exact Hin|]. split; [now apply has_id_iff | auto].
Qed.

(** C9, counterexample.  The id [nul_id] has no row in [two_players], yet
    its reset is not acknowledged: the driver refuses the id and the
    request answers 500. *)
Lemma reset_of_nul_id_fails : ~ reset_of_unknown_succeeds nul_id two_players.
Proof.
  intros H. destruct (H (conj eq_refl eq_refl) eq_refl) as [E _].
  vm_compute in E. discriminate E.
Qed.

(** C9, amended.  In a quiet world, for an id without a NUL character,
    [reset_player] always acknowledges.  The table keeps its rows, with
    their ids and creation times (none is deleted, none added); every row of
    the player now holds zero counters and empty arrays; rows of other
    players are untouched; and when the player has no row the table is left
    exactly as it was.  For an id that holds a NUL character the driver
    refuses the statement: the request answers 500 and the table is left as
    it was. *)
Theorem reset_player_zeroes player_id w :
  quiet w ->
  if sendable player_id then
    fst (reset_player player_id w) =
      inr (Ack.mk true "Player data reset successfully")
    /\ Permutation
         (map identity (players (snd (reset_player player_id w))))
         (map identity (players w))
    /\ (forall r, In r (players (snd (reset_player player_id w))) ->
                  Row.player_id r = player_id ->
                  Row.total_money r = 0 /\ Row.total_clicks r = 0
                  /\ Row.best_streak r = 0
                  /\ Row.owned_power_ups r = Some []
                  /\ Row.achievements r = Some [])
    /\ (forall r, Row.player_id r <> player_id ->
                  (In r (players (snd (reset_player player_id w))) <->
                   In r (players w)))
    /\ (existsb (has_id player_id) (players w) = false ->
        players (snd (reset_player player_id w)) = players w)
  else
    fst (reset_player player_id w) = inl (HTTPException 500 (str ValueError))
    /\ players (snd (reset_player player_id w)) = players w.
Proof.
  intros Hq. destruct (sendable player_id) eqn:Hs.
  - rewrite (reset_player_quiet _ _ Hq Hs). simpl.
    split; [reflexivity|].
    split; [apply update_where_identity; reflexivity|].
    split; [|split].
    + intros r Hin Hid.
      destruct (update_where_rows _ _ _ _ Hin Hid) as [x [_ [_ ->]]].
      simpl. repeat split.
    + intros r Hr. apply update_where_others; [reflexivity | exact Hr].
    + apply update_where_absent.
  - rewrite (reset_player_unsendable _ _ (proj1 Hq) Hs). split; reflexivity.
Qed.

Lemma reset_player_zeroes_witness :
  fst (reset_player "alice" two_players) =
    inr (Ack.mk true "Player data reset successfully")
  /\ Permutation
       (map identity (players (snd (reset_player "alice" two_players))))
       (map identity (players two_players))
  /\ (forall r, In r (players (snd (reset_player "alice" two_players))) ->
                Row.player_id r = "alice" ->
                Row.total_money r = 0 /\ Row.total_clicks r = 0
                /\ Row.best_streak r = 0
                /\ Row.owned_power_ups r = Some []
                /\ Row.achievements r = Some [])
  /\ (forall r, Row.player_id r <> "alice" ->
                (In r (players (snd (reset_player "alice" two_players))) <->
                 In r (players two_players)))
  /\ (existsb (has_id "alice") (players two_players) = false ->
      players (snd (reset_player "alice" two_players)) = players two_players).
Proof.
  apply (reset_player_zeroes "alice" two_players). split; reflexivity.
Defined.

(** ** The routes on tuple rows

    Every route reads its rows by position.  On a connection whose cursor
    returns tuples the same code answers as its documentation says; the
    lemmas below run the route bodies on [positional]. *)

Lemma py_or_array a : py_or (sql_array a) (PyList []) = PyList (or_empty a).
Proof. destruct a as [[|x l]|]; reflexivity. Qed.

Lemma player_response_positional r w :
  player_response (Some (make_row DefaultCursor (player_columns r))) w =
  (inr (response_of r), w).
Proof.
  unfold player_response, subscript, bind, lift. simpl.
  rewrite !py_or_array. reflexivity.
Qed.

Lemma get_player_positional_found player_id w r rest :
  sendable player_id = true ->
  incoming w = [] ->
  txn w = None ->
  filter (has_id player_id) (players w) = r :: rest ->
  get_player_on positional player_id w =
  (inr (response_of r),
   mkWorld (reachable w) (players w) (db_now w) (app_now w) [] None []).
Proof.
  destruct w as [up t now anow inc tx rows]. simpl. intros Hs -> -> E.
  unfold get_player_on, try_finally, try_except, bind, execute, arrive.
  destruct (adaptable_id player_id) as (-> & _). rewrite Hs.
  cbn -[player_response make_row player_columns]. rewrite E.
  cbn -[player_response make_row player_columns].
  change (row_truthy (make_row DefaultCursor (player_columns r))) with true.
  cbv beta iota. rewrite player_response_positional. reflexivity.
Qed.

Lemma get_player_positional_created player_id w :
  sendable player_id = true ->
  incoming w = [] ->
  txn w = None ->
  existsb (has_id player_id) (players w) = false ->
  get_player_on positional player_id w =
  (inr (PlayerResponse.mk player_id 0 0 0 [] []),
   mkWorld (reachable w) (players w ++ [new_player player_id (db_now w)])
     (db_now w) (app_now w) [] None []).
Proof.
  destruct w as [up t now anow inc tx rows]. simpl. intros Hs -> -> E.
  unfold get_player_on, try_finally, try_except, bind, execute, arrive.
  destruct (adaptable_id player_id) as (-> & Hins & _). rewrite Hs.
  simpl. rewrite (existsb_false_filter _ _ E). simpl.
  unfold try_finally, try_except, bind, execute, arrive.
  rewrite Hins, Hs. simpl.
  rewrite E. reflexivity.
Qed.

Lemma filter_app_found player_id t r :
  existsb (has_id player_id) t = false ->
  Row.player_id r = player_id ->
  filter (has_id player_id) (t ++ [r]) = [r].
Proof.
  intros E Hid. rewrite filter_app, (existsb_false_filter _ _ E). simpl.
  apply has_id_iff in Hid. now rewrite Hid.
Qed.

(** On tuple rows an unseen player is created and returned with zero
    counters and empty lists, and a second fetch returns the same record. *)
Lemma positional_fetch_or_create player_id w :
  sendable player_id = true ->
  incoming w = [] ->
  txn w = None ->
  existsb (has_id player_id) (players w) = false ->
  fst (get_player_on positional player_id w) =
    inr (PlayerResponse.mk player_id 0 0 0 [] [])
  /\ fst (get_player_on positional player_id
            (snd (get_player_on positional player_id w))) =
     inr (PlayerResponse.mk player_id 0 0 0 [] []).
Proof.
  intros Hs Hinc Htx Hnew.
  rewrite (get_player_positional_created _ _ Hs Hinc Htx Hnew). simpl.
  split; [reflexivity|].
  rewrite (get_player_positional_found player_id _
             (new_player player_id (db_now w)) []);
    [reflexivity | exact Hs | reflexivity | reflexivity
    | simpl; now apply filter_app_found].
Qed.

(** On tuple rows a fetch after a save that is accepted returns the
    payload, field by field. *)
Lemma positional_save_then_fetch player_id d w :
  refusal player_id d = None ->
  incoming w = [] ->
  txn w = None ->
  fst (get_player_on positional player_id
         (snd (save_player_on positional player_id d w))) =
  inr (PlayerResponse.mk player_id
         (PlayerData.total_money d) (PlayerData.total_clicks d)
         (PlayerData.best_streak d)
         (PlayerData.owned_power_ups d) (PlayerData.achievements d)).
Proof.
  intros Hr Hinc Htx.
  pose proof (refusal_none_sendable _ _ Hr) as Hsend.
  rewrite (save_player_on_quiet _ _ _ _ Hr Hinc Htx). simpl.
  pose proof (upserted_present player_id d (db_now w) (players w)) as Hex.
  destruct (filter (has_id player_id)
              (upserted player_id d (db_now w) (players w)))
    as [|r rest] eqn:E.
  - rewrite (filter_nil_existsb _ _ E) in Hex. discriminate.
  - erewrite get_player_positional_found; [| exact Hsend | reflexivity
      | reflexivity | simpl; exact E].
    assert (Hin : In r (filter (has_id player_id)
                          (upserted player_id d (db_now w) (players w))))
      by (rewrite E; now left).
    apply filter_In in Hin. destruct Hin as [Hin Hid].
    apply has_id_iff in Hid.
    destruct (upserted_rows _ _ _ _ _ Hin Hid) as (Hm & Hc & Hs & Hu & Ha).
    simpl. unfold response_of. rewrite Hid, Hm, Hc, Hs, Hu, Ha. reflexivity.
Qed.

(** On tuple rows NULL arrays are returned as empty lists. *)
Lemma positional_null_arrays player_id w r rest :
  sendable player_id = true ->
  incoming w = [] ->
  txn w = None ->
  filter (has_id player_id) (players w) = r :: rest ->
  exists resp,
    fst (get_player_on positional player_id w) = inr resp
    /\ (Row.owned_power_ups r = None -> PlayerResponse.owned_power_ups resp = [])
    /\ (Row.achievements r = None -> PlayerResponse.achievements resp = []).
Proof.
  intros Hs Hinc Htx E. exists (response_of r).
  rewrite (get_player_positional_found _ _ _ _ Hs Hinc Htx E). simpl.
  split; [reflexivity|]. split; intros ->; reflexivity.
Qed.

(** *** The ordering *)

Lemma outranks_spec a b :
  outranks a b = true <->
  Row.total_money b < Row.total_money a
  \/ (Row.total_money a = Row.total_money b
      /\ Row.total_clicks b <= Row.total_clicks a).
Proof.
  unfold outranks.
  rewrite Bool.orb_true_iff, Bool.andb_true_iff, Z.ltb_lt, Z.eqb_eq, Z.leb_le.
  tauto.
Qed.

Lemma outranks_total a b : outranks a b = false -> outranks b a = true.
Proof.
  intros H. apply outranks_spec.
  destruct (outranks a b) eqn:E; [discriminate|].
  assert (Hn : ~ (Row.total_money b < Row.total_money a
                  \/ (Row.total_money a = Row.total_money b
                      /\ Row.total_clicks b <= Row.total_clicks a))).
  { intros Hc. apply outranks_spec in Hc. congruence. }
  lia.
Qed.

Lemma outranks_trans a b c : Outranks a b -> Outranks b c -> Outranks a c.
Proof.
  unfold Outranks, Before. rewrite !outranks_spec. lia.
Qed.

Lemma order_by_money_clicks_sorted l :
  StronglySorted Outranks (order_by_money_clicks l).
Proof.
  apply (order_by_sorted outranks outranks_total outranks_trans).
Qed.

(** ORDER BY asks for some arrangement of the rows in which every row may
    stand before the ones after it.  Where no two rows agree on both money
    and clicks there is only one, the one [order_by_money_clicks] builds. *)
Lemma order_by_money_clicks_determined l l' :
  (forall a b, In a l -> In b l ->
               Row.total_money a = Row.total_money b ->
               Row.total_clicks a = Row.total_clicks b -> a = b) ->
  Permutation l' l ->
  StronglySorted Outranks l' ->
  l' = order_by_money_clicks l.
Proof.
  intros Hties Hp Hs.
  apply (sorted_permutation_unique outranks); auto.
  - intros a b Ha Hb Hab Hba.
    apply (proj1 (outranks_spec _ _)) in Hab.
    apply (proj1 (outranks_spec _ _)) in Hba.
    apply Hties; try lia; eapply Permutation_in; eauto.
  - apply order_by_money_clicks_sorted.
  - rewrite Hp. apply Permutation_sym, order_by_permutation.
Qed.

Lemma In_firstn {A : Type} n (l : list A) x : In x (firstn n l) -> In x l.
Proof.
  revert n. induction l as [|y l IH]; intros [|n]; simpl; try tauto.
  intros [H | H]; [now left | right; eauto].
Qed.

Lemma firstn_sorted {A : Type} (R : A -> A -> Prop) n l :
  StronglySorted R l -> StronglySorted R (firstn n l).
Proof.
  intros H. revert n. induction H as [|x l Hl IH Hx]; intros [|n]; simpl;
    try constructor.
  - apply IH.
  - rewrite Forall_forall in *. intros y Hy. apply Hx.
    exact (In_firstn n l y Hy).
Qed.

(** *** Leaderboard *)

Lemma py_or_array_length a :
  py_or (array_length a) (PyInt 0) = length_or_0 a.
Proof. destruct a as [[|x l]|]; reflexivity. Qed.

Lemma leaderboard_entry_positional now i r w :
  leaderboard_entry (i, make_row DefaultCursor (leaderboard_columns now r)) w
  = (inr (entry_of now (i, r)), w).
Proof.
  unfold leaderboard_entry, bind, lift. simpl.
  rewrite !py_or_array_length.
  destruct (Row.updated_at r); reflexivity.
Qed.

Lemma for_each_entries now rows start w :
  for_each leaderboard_entry
    (enumerate start
       (map (make_row DefaultCursor) (map (leaderboard_columns now) rows))) w
  = (inr (map (entry_of now) (enumerate start rows)), w).
Proof.
  revert start. induction rows as [|r rows IH]; intros start;
    [reflexivity|].
  cbn -[leaderboard_entry make_row leaderboard_columns entry_of].
  unfold bind at 1. rewrite leaderboard_entry_positional.
  unfold bind at 1. rewrite IH. reflexivity.
Qed.

Lemma get_leaderboard_positional limit w :
  incoming w = [] ->
  txn w = None ->
  0 <= limit < 2 ^ 63 ->
  fst (get_leaderboard_on positional limit w) =
  inr (Leaderboard.mk
         (map (entry_of (db_now w)) (enumerate 1 (page limit (players w))))
         (sql_count (population (players w)))
         (PyIsoformat (app_now w))).
Proof.
  destruct w as [up t now anow inc tx rows]. simpl. intros -> -> [Hlo Hhi].
  unfold get_leaderboard_on, try_finally, try_except, bind, execute, arrive,
    fetchall.
  cbn -[Z.pow for_each make_row leaderboard_columns order_by_money_clicks
        entry_of].
  replace (limit <? 0) with false by (symmetry; apply Z.ltb_ge; lia).
  replace (2 ^ 63 <=? limit) with false by (symmetry; apply Z.leb_gt; lia).
  cbn -[for_each make_row leaderboard_columns order_by_money_clicks entry_of].
  rewrite for_each_entries. reflexivity.
Qed.

Lemma enumerate_nth {A : Type} (l : list A) start i n x :
  nth_error (enumerate start l) i = Some (n, x) ->
  n = start + Z.of_nat i /\ nth_error l i = Some x.
Proof.
  revert start i. induction l as [|y l IH]; intros start [|i]; simpl;
    try discriminate.
  - intros H. inversion H. split; [lia | reflexivity].
  - intros H. destruct (IH _ _ H) as [-> Hx]. split; [lia | exact Hx].
Qed.

(** On tuple rows, for a limit PostgreSQL accepts, the leaderboard is the
    numbering from 1 of rows that all have positive earnings, stand in
    (money, clicks) descending order, and are at most [limit]. *)
Lemma positional_leaderboard limit w :
  incoming w = [] ->
  txn w = None ->
  0 <= limit < 2 ^ 63 ->
  exists board rows,
    fst (get_leaderboard_on positional limit w) = inr board
    /\ Leaderboard.leaderboard board =
       map (entry_of (db_now w)) (enumerate 1 rows)
    /\ (forall r, In r rows -> In r (players w) /\ 0 < Row.total_money r)
    /\ StronglySorted Outranks rows
    /\ Z.of_nat (List.length (Leaderboard.leaderboard board)) <= limit
    /\ (forall i e, nth_error (Leaderboard.leaderboard board) i = Some e ->
                    Entry.rank e = Z.of_nat i + 1).
Proof.
  intros Hinc Htx Hlim.
  eexists. exists (page limit (players w)).
  split; [apply (get_leaderboard_positional _ _ Hinc Htx Hlim)|]. simpl.
  split; [reflexivity|]. split; [|split; [|split]].
  - intros r Hr. apply In_firstn in Hr.
    apply (proj1 (In_order_by _ _ _)) in Hr.
    apply (proj1 (In_population _ _)). exact Hr.
  - apply firstn_sorted, order_by_money_clicks_sorted.
  - assert (Hlen : forall (l : list Row.t) s,
               List.length (map (entry_of (db_now w)) (enumerate s l))
               = List.length l).
    { induction l as [|x l IH]; intros s; simpl; [reflexivity|].
      now rewrite IH. }
    rewrite Hlen. unfold page.
    pose proof (firstn_le_length (Z.to_nat limit)
                  (order_by_money_clicks (population (players w)))).
    lia.
  - intros i e He. rewrite nth_error_map in He.
    destruct (nth_error (enumerate 1 (page limit (players w))) i)
      as [[n r]|] eqn:E; [|discriminate].
    apply enumerate_nth in E. destruct E as [-> _].
    injection He as <-. change (1 + Z.of_nat i = Z.of_nat i + 1). lia.
Qed.

(** *** Statistics *)

(** On tuple rows, with nobody in the positive-earnings population, every
    statistic is zero. *)
Lemma positional_stats_empty w :
  incoming w = [] ->
  txn w = None ->
  population (players w) = [] ->
  fst (get_global_stats_on positional w) =
  inr (Stats.mk
         (GlobalStats.mk (AnInt 0) (AnInt 0) (AnInt 0) (AnInt 0) (AnInt 0)
            (AnInt 0) (AnInt 0) (AnInt 0) (AnInt 0) (AnInt 0))
         (PyIsoformat (app_now w))).
Proof.
  destruct w as [up t now anow inc tx rows]. simpl. intros -> -> E.
  unfold get_global_stats_on, try_finally, try_except, bind, execute, arrive.
  simpl. rewrite E. reflexivity.
Qed.

(** *** Rank *)

(** The 404 of line 310 is swallowed on any connection. *)
Lemma rank_absent_on conn player_id w :
  sendable player_id = true ->
  incoming w = [] ->
  txn w = None ->
  ranked_as player_id (players w) = [] ->
  fst (get_player_rank_on conn player_id w) =
  inl (HTTPException 500
         (str (HTTPException 404 (Literal "Player not found or no earnings")))).
Proof.
  destruct w as [up t now anow inc tx rows]. simpl. intros Hs -> -> E.
  unfold get_player_rank_on, try_finally, try_except, bind, execute, arrive.
  destruct (adaptable_id player_id) as (_ & _ & _ & ->). rewrite Hs.
  simpl. fold (ranked_as player_id t). rewrite E. reflexivity.
Qed.

Lemma ranked_as_population player_id t k r rest :
  ranked_as player_id t = (k, r) :: rest ->
  In r (population t) /\ Row.player_id r = player_id.
Proof.
  intros E.
  assert (Hin : In (k, r) (ranked_as player_id t)) by (rewrite E; now left).
  apply filter_In in Hin. destruct Hin as [Hin Hid]. simpl in Hid.
  apply In_enumerate in Hin. apply (proj1 (In_order_by _ _ _)) in Hin.
  split; [exact Hin | now apply has_id_iff].
Qed.

(** On tuple rows a ranked player gets its row number, the size of the
    population, its earnings, and the rounded percentile of
    (population - rank) / population * 100. *)
Lemma positional_rank player_id w k r rest :
  sendable player_id = true ->
  incoming w = [] ->
  txn w = None ->
  ranked_as player_id (players w) = (k, r) :: rest ->
  fst (get_player_rank_on positional player_id w) =
  inr (Rank.mk player_id (PyInt k)
         (sql_count (population (players w)))
         (PyRoundedPercent
            (Z.of_nat (List.length (population (players w))) - k)
            (Z.of_nat (List.length (population (players w)))))
         (PyInt (Row.total_money r))).
Proof.
  destruct w as [up t now anow inc tx rows]. simpl. intros Hs -> -> E.
  destruct (ranked_as_population _ _ _ _ _ E) as [Hpop _].
  unfold get_player_rank_on, try_finally, try_except, bind, execute, arrive.
  destruct (adaptable_id player_id) as (_ & _ & _ & ->). rewrite Hs.
  simpl. fold (ranked_as player_id t). rewrite E. simpl.
  unfold rounded_percentile, bind. simpl.
  destruct (population t) as [|x l]; [destruct Hpop|].
  reflexivity.
Qed.

Lemma NoDup_map_filter {A B : Type} (g : A -> B) (f : A -> bool) l :
  NoDup (map g l) -> NoDup (map g (filter f l)).
Proof.
  induction l as [|x l IH]; simpl; intros H; [constructor|].
  inversion H as [|y ys Hx Hl]; subst.
  destruct (f x); simpl; [|now apply IH].
  constructor; [|now apply IH].
  intros Hin. apply Hx. apply in_map_iff in Hin.
  destruct Hin as [z [Hz Hin]]. apply filter_In in Hin.
  apply in_map_iff. exists z. tauto.
Qed.

Lemma unique_ranked t :
  unique_ids t ->
  NoDup (map Row.player_id (order_by_money_clicks (population t))).
Proof.
  intros H.
  apply (Permutation_NoDup
           (l := map Row.player_id (population t))).
  - apply Permutation_map, Permutation_sym, order_by_permutation.
  - now apply NoDup_map_filter.
Qed.

Lemma enumerate_unique (l : list Row.t) start i r :
  NoDup (map Row.player_id l) ->
  nth_error l i = Some r ->
  filter (fun nr => has_id (Row.player_id r) (snd nr)) (enumerate start l) =
  [(start + Z.of_nat i, r)].
Proof.
  revert start i. induction l as [|x l IH]; intros start [|i] Hnd Hnth;
    simpl in Hnth; try discriminate;
    inversion Hnd as [|y ys Hx Hl]; subst.
  - injection Hnth as ->. simpl.
    replace (has_id (Row.player_id r) r) with true
      by (symmetry; now apply has_id_iff).
    f_equal; [f_equal; lia|].
    apply filter_none. intros [n z] Hz. simpl.
    apply In_enumerate in Hz.
    destruct (has_id (Row.player_id r) z) eqn:E; [|reflexivity].
    exfalso. apply Hx. apply has_id_iff in E. rewrite <- E.
    now apply in_map.
  - simpl.
    destruct (has_id (Row.player_id r) x) eqn:E.
    + exfalso. apply Hx. apply has_id_iff in E. rewrite E.
      apply in_map. eapply nth_error_In. exact Hnth.
    + rewrite (IH (start + 1) i Hl Hnth). f_equal. f_equal. lia.
Qed.

Lemma nth_error_firstn_Some {A : Type} n (l : list A) i x :
  nth_error (firstn n l) i = Some x -> nth_error l i = Some x.
Proof.
  revert n i. induction l as [|y l IH]; intros [|n] [|i]; simpl;
    try discriminate; auto.
  apply IH.
Qed.

(** On tuple rows the two views agree: a player at position [i] of the
    leaderboard page carries rank [i + 1] there and is answered the same
    rank by the rank route.  (Both statements order equal keys alike here;
    SQL leaves that order open.) *)
Lemma positional_rank_agrees limit w i e :
  incoming w = [] ->
  txn w = None ->
  unique_ids (players w) ->
  (forall r, In r (players w) -> sendable (Row.player_id r) = true) ->
  0 <= limit < 2 ^ 63 ->
  forall board,
    fst (get_leaderboard_on positional limit w) = inr board ->
    nth_error (Leaderboard.leaderboard board) i = Some e ->
    exists player_id answer,
      Entry.player_id e = PyStr player_id
      /\ fst (get_player_rank_on positional player_id w) = inr answer
      /\ Rank.rank answer = PyInt (Entry.rank e).
Proof.
  intros Hinc Htx Huniq Hsend Hlim board Hboard He.
  rewrite (get_leaderboard_positional _ _ Hinc Htx Hlim) in Hboard.
  injection Hboard as <-. simpl in He. rewrite nth_error_map in He.
  destruct (nth_error (enumerate 1 (page limit (players w))) i)
    as [[n r]|] eqn:E; [|discriminate].
  injection He as <-. apply enumerate_nth in E. destruct E as [-> Hr].
  apply nth_error_firstn_Some in Hr.
  pose proof (enumerate_unique _ 1 _ _ (unique_ranked _ Huniq) Hr) as Hrank.
  fold (ranked_as (Row.player_id r) (players w)) in Hrank.
  assert (Hs : sendable (Row.player_id r) = true).
  { apply Hsend. apply nth_error_In in Hr.
    apply (proj1 (In_order_by _ _ _)) in Hr.
    now apply In_population in Hr. }
  exists (Row.player_id r). eexists.
  split; [reflexivity|].
  split; [apply (positional_rank _ _ _ _ _ Hs Hinc Htx Hrank) | reflexivity].
Qed.

(** ** The scenario of the spec

    alice saves 100 coins and bob 200.  On tuple rows the leaderboard lists
    bob first and alice is ranked second of two; on the connection the
    source opens, every read answers 500. *)

Example scenario_leaderboard_positional :
  option_map
    (fun b => map (fun e => (Entry.rank e, Entry.player_id e))
                (Leaderboard.leaderboard b))
    (match fst (get_leaderboard_on positional 10 two_players) with
     | inr b => Some b
     | inl _ => None
     end)
  = Some [(1, PyStr "bob"); (2, PyStr "alice")].
Proof. reflexivity. Qed.

Example scenario_rank_positional :
  fst (get_player_rank_on positional "alice" two_players) =
  inr (Rank.mk "alice" (PyInt 2) (PyInt 2) (PyRoundedPercent 0 2) (PyInt 100)).
Proof. reflexivity. Qed.

Example scenario_rank :
  fst (get_player_rank "alice" two_players) =
  inl (HTTPException 500 (str (KeyError 0))).
Proof. reflexivity. Qed.

Example scenario_reset_unknown :
  reset_player "zed" two_players =
  (inr (Ack.mk true "Player data reset successfully"), two_players).
Proof. reflexivity. Qed.

Example scenario_database_down :
  fst (get_player "alice" (mkWorld false [] 0 0 [] None [])) =
  inl (HTTPException 503 (Literal "Database connection failed")).
Proof. reflexivity. Qed.

(** The guard of line 317 can be reached when the population is emptied
    between the two statements of the rank route: alice is ranked, every
    player is reset by other requests, and the count is 0. *)
Example scenario_percentile_guard :
  fst (get_player_rank_on positional "alice"
         (mkWorld true [alice_row; bob_row] 1000 1000
            [[]; [Reset "alice"; Reset "bob"]] None [])) =
  inr (Rank.mk "alice" (PyInt 2) (PyInt 0) (PyInt 0) (PyInt 100)).
Proof. reflexivity. Qed.

(** * Properties of the routes beyond the claims *)

(** ** The database cannot be reached *)

Lemma get_db_connection_down w :
  reachable w = false ->
  get_db_connection w =
  (inl (HTTPException 503 (Literal "Database connection failed")), w).
Proof.
  intros H. unfold get_db_connection, try_except, psycopg2_connect.
  rewrite H. reflexivity.
Qed.

Lemma down_route {A : Type} (body : connection -> M A) w :
  reachable w = false ->
  (conn <- get_db_connection ;; body conn) w =
  (inl (HTTPException 503 (Literal "Database connection failed")), w).
Proof.
  intros H. unfold bind. now rewrite (get_db_connection_down _ H).
Qed.

(** X1.  When the connection cannot be opened every route answers 503 with
    the detail of line 47, and the world is left as it was: no statement is
    sent. *)
Theorem database_down_is_503 w player_id data limit :
  reachable w = false ->
  let e := HTTPException 503 (Literal "Database connection failed") in
  get_player player_id w = (inl e, w)
  /\ save_player player_id data w = (inl e, w)
  /\ reset_player player_id w = (inl e, w)
  /\ get_leaderboard limit w = (inl e, w)
  /\ get_global_stats w = (inl e, w)
  /\ get_player_rank player_id w = (inl e, w).
Proof.
  intros H e. repeat split; apply down_route; exact H.
Qed.

Lemma database_down_is_503_witness :
  let e := HTTPException 503 (Literal "Database connection failed") in
  get_player "alice" down = (inl e, down)
  /\ save_player "alice" nothing down = (inl e, down)
  /\ reset_player "alice" down = (inl e, down)
  /\ get_leaderboard 10 down = (inl e, down)
  /\ get_global_stats down = (inl e, down)
  /\ get_player_rank "alice" down = (inl e, down).
Proof.
  apply (database_down_is_503 down "alice" nothing 10). reflexivity.
Defined.

(** ** What a route keeps *)

Section Preservation.
  Context (I : World -> Prop).

Lemma preserves_ret {A : Type} (a : A) : preserves I (ret a).
Proof. intros w H. exact H. Qed.

Lemma preserves_raise {A : Type} e : preserves I (@raise A e).
Proof. intros w H. exact H. Qed.

Lemma preserves_lift {A : Type} (r : exn + A) : preserves I (lift r).
Proof. destruct r; [apply preserves_raise | apply preserves_ret]. Qed.

Lemma preserves_subscript row i : preserves I (subscript row i).
Proof. destruct row; [apply preserves_lift | apply preserves_raise]. Qed.

Lemma preserves_datetime_now : preserves I datetime_now.
Proof. intros w H. exact H. Qed.

Lemma preserves_bind {A B : Type} (m : M A) (k : A -> M B) :
  preserves I m -> (forall a, preserves I (k a)) -> preserves I (bind m k).
Proof.
  intros Hm Hk w H. unfold bind. specialize (Hm w H).
  destruct (m w) as [[e | a] w1]; simpl in *; [exact Hm|].
  now apply Hk.
Qed.

Lemma preserves_try_except {A : Type} (body : M A) (handler : exn -> M A) :
  preserves I body -> (forall e, preserves I (handler e)) ->
  preserves I (try_except body handler).
Proof.
  intros Hm Hh w H. unfold try_except. specialize (Hm w H).
  destruct (body w) as [[e | a] w1]; simpl in *; [now apply Hh | exact Hm].
Qed.

Lemma preserves_try_finally {A : Type} (body : M A) (cleanup : M unit) :
  preserves I body -> preserves I cleanup ->
  preserves I (try_finally body cleanup).
Proof.
  intros Hm Hc w H. unfold try_finally. specialize (Hm w H).
  destruct (body w) as [r w1]. simpl in Hm. specialize (Hc w1 Hm).
  destruct (cleanup w1) as [[e | u] w2]; exact Hc.
Qed.

Lemma preserves_for_each {A B : Type} (f : A -> M B) (xs : list A) :
  (forall x, preserves I (f x)) -> preserves I (for_each f xs).
Proof.
  intros Hf. induction xs as [|x xs IH]; simpl; [apply preserves_ret|].
  apply preserves_bind; [apply Hf | intros y].
  apply preserves_bind; [exact IH | intros ys; apply preserves_ret].
Qed.

Lemma preserves_if {A : Type} (b : bool) (m1 m2 : M A) :
  preserves I m1 -> preserves I m2 -> preserves I (if b then m1 else m2).
Proof. destruct b; auto. Qed.


Lemma preserves_leaderboard_entry nr : preserves I (leaderboard_entry nr).
Proof.
  destruct nr as [i result]. unfold leaderboard_entry.
  repeat (apply preserves_bind; [apply preserves_lift | intros ?]).
  apply preserves_bind; [|intros ?; apply preserves_ret].
  apply preserves_if; [|apply preserves_ret].
  apply preserves_bind; [apply preserves_lift | intros ?; apply preserves_lift].
Qed.

Lemma preserves_rounded_percentile total result :
  preserves I (rounded_percentile total result).
Proof.
  unfold rounded_percentile.
  apply preserves_bind; [apply preserves_lift | intros n].
  apply preserves_if; [|apply preserves_ret].
  apply preserves_bind; [apply preserves_subscript | intros r].
  apply preserves_bind; [apply preserves_lift | intros k; apply preserves_ret].
Qed.

  (** What is asked of the driver. *)
  Hypothesis keeps_execute : forall cur q, preserves I (execute cur q).
  Hypothesis keeps_fetchone : forall cur, preserves I (fetchone cur).
  Hypothesis keeps_fetchall : forall cur, preserves I (fetchall cur).
  Hypothesis keeps_commit : forall conn, preserves I (commit conn).
  Hypothesis keeps_rollback : forall conn, preserves I (rollback conn).
  Hypothesis keeps_cur_close : forall cur, preserves I (cur_close cur).
  Hypothesis keeps_conn_close : forall conn, preserves I (conn_close conn).





End Preservation.

Section ReadRoutes.
  Context (I : World -> Prop).

  Hypothesis keeps_read :
    forall cur q, reads q = true -> preserves I (execute cur q).
  Hypothesis keeps_fetchone : forall cur, preserves I (fetchone cur).
  Hypothesis keeps_fetchall : forall cur, preserves I (fetchall cur).
  Hypothesis keeps_cur_close : forall cur, preserves I (cur_close cur).
  Hypothesis keeps_conn_close : forall conn, preserves I (conn_close conn).

Lemma preserves_read_release conn cur : preserves I (release conn cur).
Proof.
  unfold release. apply preserves_bind; [apply keeps_cur_close | intros _].
  apply keeps_conn_close.
Qed.

Lemma preserves_count cur alias :
  preserves I
    (execute cur (CountPlayers alias) ;;;
     total_result <- fetchone cur ;;
     (if found total_result then subscript total_result 0
      else ret (PyInt 0))).
Proof.
  apply preserves_bind; [now apply keeps_read | intros _].
  apply preserves_bind; [apply keeps_fetchone | intros total_result].
  apply preserves_if; [apply preserves_subscript | apply preserves_ret].
Qed.

Lemma get_leaderboard_on_preserves conn limit :
  preserves I (get_leaderboard_on conn limit).
Proof.
  unfold get_leaderboard_on.
  apply preserves_try_finally; [|apply preserves_read_release].
  apply preserves_try_except; [|intros e; apply preserves_raise].
  apply preserves_bind; [now apply keeps_read | intros _].
  apply preserves_bind; [apply keeps_fetchall | intros results].
  apply preserves_bind;
    [apply preserves_for_each; intros nr; apply preserves_leaderboard_entry
    | intros leaderboard].
  apply preserves_bind; [now apply keeps_read | intros _].
  apply preserves_bind; [apply keeps_fetchone | intros total_result].
  apply preserves_bind;
    [apply preserves_if; [apply preserves_subscript | apply preserves_ret]
    | intros total_players].
  apply preserves_bind;
    [apply preserves_datetime_now | intros now; apply preserves_ret].
Qed.

Lemma get_global_stats_on_preserves conn :
  preserves I (get_global_stats_on conn).
Proof.
  unfold get_global_stats_on.
  apply preserves_try_finally; [|apply preserves_read_release].
  apply preserves_try_except; [|intros e; apply preserves_raise].
  apply preserves_bind; [now apply keeps_read | intros _].
  apply preserves_bind; [apply keeps_fetchone | intros stats].
  repeat (apply preserves_bind; [apply preserves_subscript | intros ?];
          apply preserves_bind; [apply preserves_lift | intros ?]).
  apply preserves_bind;
    [apply preserves_datetime_now | intros now; apply preserves_ret].
Qed.

Lemma get_player_rank_on_preserves conn player_id :
  preserves I (get_player_rank_on conn player_id).
Proof.
  unfold get_player_rank_on.
  apply preserves_try_finally; [|apply preserves_read_release].
  apply preserves_try_except; [|intros e; apply preserves_raise].
  apply preserves_bind; [now apply keeps_read | intros _].
  apply preserves_bind; [apply keeps_fetchone | intros result].
  apply preserves_bind;
    [apply preserves_if; [apply preserves_ret | apply preserves_raise]
    | intros _].
  apply preserves_bind; [now apply keeps_read | intros _].
  apply preserves_bind; [apply keeps_fetchone | intros total_result].
  apply preserves_bind;
    [apply preserves_if; [apply preserves_subscript | apply preserves_ret]
    | intros total].
  apply preserves_bind; [apply preserves_rounded_percentile | intros p].
  apply preserves_bind; [apply preserves_subscript | intros rank].
  apply preserves_bind;
    [apply preserves_subscript | intros earnings; apply preserves_ret].
Qed.
End ReadRoutes.

(** *** The key stays unique *)


















(** *** Reads write nothing *)

Lemma reads_write_nothing q now t written rows :
  reads q = true ->
  run_query q now t = inr (written, rows) ->
  written = None.
Proof.
  destruct q; simpl; try discriminate; intros _;
    repeat match goal with
           | |- context [if ?c then _ else _] => destruct c
           end;
    intros H; inversion H; reflexivity.
Qed.

Lemma untouched_read t0 cur q :
  reads q = true -> preserves (untouched t0) (execute cur q).
Proof.
  intros Hq w (Hp & Ht & Hi). unfold execute, arrive.
  destruct (adaptable q); [|repeat split; assumption].
  rewrite Hi, Ht.
  destruct (run_query q (db_now w) (players w)) as [e | [written out]] eqn:E.
  - repeat split; assumption.
  - rewrite (reads_write_nothing _ _ _ _ _ Hq E). repeat split; assumption.
Qed.

Lemma untouched_fetchone t0 cur : preserves (untouched t0) (fetchone cur).
Proof.
  intros w H. unfold fetchone. destruct (cursor_rows w); exact H.
Qed.

Lemma untouched_fetchall t0 cur : preserves (untouched t0) (fetchall cur).
Proof. intros w H. exact H. Qed.

Lemma untouched_cur_close t0 cur : preserves (untouched t0) (cur_close cur).
Proof. intros w H. exact H. Qed.

Lemma untouched_conn_close t0 conn :
  preserves (untouched t0) (conn_close conn).
Proof. intros w (Hp & Ht & Hi). repeat split; assumption. Qed.

Lemma connected_untouched {A : Type} (body : connection -> M A) w :
  (forall conn, preserves (untouched (players w)) (body conn)) ->
  quiet w ->
  players (snd ((conn <- get_db_connection ;; body conn) w)) = players w.
Proof.
  intros Hb [Hup Hinc].
  unfold bind, get_db_connection, try_except, psycopg2_connect.
  rewrite Hup. simpl.
  match goal with |- context [body ?c ?w1] =>
    assert (Hk : untouched (players w) (snd (body c w1)))
      by (apply Hb; repeat split; simpl; auto)
  end.
  destruct (body _ _) as [[e | a] w2]; exact (proj1 Hk).
Qed.

(** X5.  The three aggregate routes never change the table: in a quiet world
    the committed table after the leaderboard, the statistics or a rank
    request is the table before it, whatever the request and whether it
    returned or failed. *)
Theorem aggregate_routes_write_nothing w player_id limit :
  quiet w ->
  players (snd (get_leaderboard limit w)) = players w
  /\ players (snd (get_global_stats w)) = players w
  /\ players (snd (get_player_rank player_id w)) = players w.
Proof.
  intros Hq.
  repeat apply conj; apply connected_untouched; try exact Hq; intros conn.
  - apply get_leaderboard_on_preserves;
      auto using untouched_read, untouched_fetchone, untouched_fetchall,
        untouched_cur_close, untouched_conn_close.
  - apply get_global_stats_on_preserves;
      auto using untouched_read, untouched_fetchone, untouched_cur_close,
        untouched_conn_close.
  - apply get_player_rank_on_preserves;
      auto using untouched_read, untouched_fetchone, untouched_cur_close,
        untouched_conn_close.
Qed.

Lemma aggregate_routes_write_nothing_witness :
  players (snd (get_leaderboard 1 two_players)) = players two_players
  /\ players (snd (get_global_stats two_players)) = players two_players
  /\ players (snd (get_player_rank "bob" two_players)) = players two_players.
Proof.
  apply (aggregate_routes_write_nothing two_players "bob" 1).
  split; reflexivity.
Defined.

(** *** Fetch-or-create writes once *)




(** ** What the driver and the server refuse *)

Lemma save_player_unsendable player_id d w :
  reachable w = true ->
  adaptable (UpsertPlayer player_id d) = false ->
  save_player player_id d w =
  (inl (HTTPException 500 (str ValueError)),
   mkWorld true (players w) (db_now w) (app_now w) (incoming w) None []).
Proof.
  destruct w as [up t now anow inc tx rows]. simpl. intros -> Ha.
  unfold save_player, get_db_connection, save_player_on, try_finally,
    try_except, bind, psycopg2_connect, execute.
  rewrite Ha. reflexivity.
Qed.

(** X19.  An id that holds a NUL character never reaches the database: with
    the database up, [get_player], [save_player] (with any payload),
    [reset_player] and [get_player_rank] answer 500 with the driver's
    ValueError, and the table is left as it was. *)
Theorem unsendable_id_is_refused player_id d w :
  reachable w = true ->
  sendable player_id = false ->
  refused_by_driver (players w) (get_player player_id w)
  /\ refused_by_driver (players w) (save_player player_id d w)
  /\ refused_by_driver (players w) (reset_player player_id w)
  /\ fst (get_player_rank player_id w) =
     inl (HTTPException 500 (str ValueError)).
Proof.
  intros Hup Hs. unfold refused_by_driver.
  rewrite (get_player_unsendable _ _ Hup Hs).
  rewrite (reset_player_unsendable _ _ Hup Hs).
  rewrite (get_player_rank_unsendable _ _ Hup Hs).
  rewrite save_player_unsendable;
    [| exact Hup | unfold adaptable; simpl; now rewrite Hs].
  repeat split.
Qed.

Lemma unsendable_id_is_refused_witness :
  refused_by_driver (players two_players) (get_player nul_id two_players)
  /\ refused_by_driver (players two_players)
       (save_player nul_id alice_save two_players)
  /\ refused_by_driver (players two_players) (reset_player nul_id two_players)
  /\ fst (get_player_rank nul_id two_players) =
     inl (HTTPException 500 (str ValueError)).
Proof.
  apply (unsendable_id_is_refused nul_id alice_save two_players); reflexivity.
Defined.

(** X20.  A [total_money] that does not fit in 64 bits is refused by the
    server: in a quiet world [save_player] answers 500 with the driver's
    out-of-range error and the table is left as it was, whether or not the
    player has a row. *)
Theorem money_out_of_range_is_refused player_id d w :
  quiet w ->
  adaptable (UpsertPlayer player_id d) = true ->
  PlayerData.total_money d < - 2 ^ 63 \/ 2 ^ 63 <= PlayerData.total_money d ->
  fst (save_player player_id d w) =
    inl (HTTPException 500 (str NumericValueOutOfRange))
  /\ players (snd (save_player player_id d w)) = players w.
Proof.
  intros Hq Ha Hm. rewrite (save_player_quiet _ _ _ Hq).
  assert (Hr : refusal player_id d = Some NumericValueOutOfRange).
  { unfold refusal. rewrite Ha. cbn [negb].
    replace (fits d) with false; [reflexivity|].
    symmetry. unfold fits, bigint.
    apply Bool.andb_false_iff. left. apply Bool.andb_false_iff. left.
    apply Bool.andb_false_iff.
    destruct Hm as [Hm | Hm]; [left; apply Z.leb_gt | right; apply Z.ltb_ge];
      lia. }
  rewrite Hr. split; reflexivity.
Qed.

Lemma money_out_of_range_is_refused_witness :
  fst (save_player "alice" (PlayerData.mk (2 ^ 63) 0 0 [] []) two_players) =
    inl (HTTPException 500 (str NumericValueOutOfRange))
  /\ players
       (snd (save_player "alice" (PlayerData.mk (2 ^ 63) 0 0 [] [])
               two_players)) = players two_players.
Proof.
  apply (money_out_of_range_is_refused "alice"
           (PlayerData.mk (2 ^ 63) 0 0 [] []) two_players).
  - split; reflexivity.
  - reflexivity.
  - right. simpl. lia.
Defined.

(** ** Save and reset under concurrent writers *)

Lemma accepted_refusal player_id d :
  accepted player_id d -> refusal player_id d = None.
Proof.
  intros [Ha Hs]. unfold refusal. rewrite Ha, (small_fits _ Hs). reflexivity.
Qed.












(** ** What a save leaves alone, and saving twice *)




(** Overwriting with the payload the rows already hold changes only
    [updated_at], wherever the new versions are written. *)
Lemma overwrite_again player_id d now t :
  (forall r, In r t -> Row.player_id r = player_id ->
             but_updated_at (overwrite d now r) = but_updated_at r) ->
  Permutation (map but_updated_at (update_where player_id (overwrite d now) t))
    (map but_updated_at t).
Proof.
  intros Hsame. unfold update_where. rewrite map_app, map_map.
  rewrite (map_ext_in (fun x => but_updated_at (overwrite d now x))
             but_updated_at).
  - rewrite <- map_app. apply Permutation_map, filter_partition.
  - intros r Hr. apply filter_In in Hr. destruct Hr as [Hr Hid].
    apply Hsame; [exact Hr | now apply has_id_iff].
Qed.

(** X10.  Saving the same payload again, at any later time, changes nothing
    but [updated_at]: in a quiet world, for a payload the driver and the
    server take, the table after the second save holds the rows of the table
    after the first, equal in every other column, and the player's rows
    carry the time of the second save. *)
Theorem save_player_twice w player_id data later :
  quiet w ->
  accepted player_id data ->
  let once := snd (save_player player_id data w) in
  let twice := snd (save_player player_id data (at_time later once)) in
  Permutation (map but_updated_at (players twice))
    (map but_updated_at (players once))
  /\ (forall r, In r (players twice) -> Row.player_id r = player_id ->
                Row.updated_at r = Some later).
Proof.
  intros Hq Hacc once twice. subst once twice.
  pose proof (accepted_refusal _ _ Hacc) as Hr.
  rewrite (save_player_quiet _ _ _ Hq). rewrite Hr. cbn [snd].
  rewrite save_player_quiet by (split; reflexivity). rewrite Hr.
  cbn [snd players db_now at_time].
  set (t1 := upserted player_id data (db_now w) (players w)).
  assert (Hex : existsb (has_id player_id) t1 = true)
    by apply upserted_present.
  unfold upserted at 1 2. rewrite Hex. split.
  - apply overwrite_again. intros r Hin Hid.
    destruct (upserted_rows _ _ _ _ _ Hin Hid) as (Hm & Hc & Hs & Hp & Ha).
    unfold but_updated_at, overwrite. simpl.
    now rewrite Hm, Hc, Hs, Hp, Ha.
  - intros r Hin Hid.
    destruct (update_where_rows _ _ _ _ Hin Hid) as [x [_ [_ ->]]].
    reflexivity.
Qed.

Lemma save_player_twice_witness :
  let once := snd (save_player "alice" alice_save two_players) in
  let twice := snd (save_player "alice" alice_save (at_time 5000 once)) in
  Permutation (map but_updated_at (players twice))
    (map but_updated_at (players once))
  /\ (forall r, In r (players twice) -> Row.player_id r = "alice" ->
                Row.updated_at r = Some 5000).
Proof.
  apply (save_player_twice two_players "alice" alice_save 5000).
  - split; reflexivity.
  - split; [reflexivity | unfold small; simpl; lia].
Defined.

(** ** Reset after save, and who is ranked *)








(** ** The leaderboard statement *)

Lemma sorted_app_inv {A : Type} (R : A -> A -> Prop) l1 l2 :
  StronglySorted R (l1 ++ l2) ->
  forall x y, In x l1 -> In y l2 -> R x y.
Proof.
  induction l1 as [|a l1 IH]; simpl; intros H x y Hx Hy; [destruct Hx|].
  inversion H as [|? ? Hs Ha]; subst.
  destruct Hx as [-> | Hx]; [|now apply IH].
  rewrite Forall_forall in Ha. apply Ha. apply in_app_iff. now right.
Qed.

(** X13.  For a limit PostgreSQL accepts, the statement of lines 184-203
    returns the top of the ranked population: its rows all have positive
    earnings, stand in (money, clicks) descending order, number the smaller
    of [limit] and the population, and every ranked player left out is
    outranked by every row returned. *)
Theorem leaderboard_statement_is_top limit now t :
  0 <= limit < 2 ^ 63 ->
  run_query (SelectLeaderboard limit) now t =
    inr (None, map (leaderboard_columns now) (page limit t))
  /\ (forall r, In r (page limit t) -> In r t /\ 0 < Row.total_money r)
  /\ StronglySorted Outranks (page limit t)
  /\ List.length (page limit t) =
     Nat.min (Z.to_nat limit) (List.length (population t))
  /\ (forall r, In r (population t) ->
                In r (page limit t)
                \/ forall x, In x (page limit t) -> Outranks x r).
Proof.
  intros [Hlo Hhi]. split; [|split; [|split; [|split]]].
  - cbn -[Z.pow order_by_money_clicks].
    replace (limit <? 0) with false by (symmetry; apply Z.ltb_ge; lia).
    replace (2 ^ 63 <=? limit) with false by (symmetry; apply Z.leb_gt; lia).
    reflexivity.
  - intros r Hr. apply In_firstn in Hr.
    apply (proj1 (In_order_by _ _ _)) in Hr.
    apply (proj1 (In_population _ _)). exact Hr.
  - apply firstn_sorted, order_by_money_clicks_sorted.
  - unfold page. rewrite length_firstn. f_equal.
    apply Permutation_length, order_by_permutation.
  - intros r Hr. unfold page.
    set (l := order_by_money_clicks (population t)).
    assert (Hl : In r l) by (apply In_order_by; exact Hr).
    rewrite <- (firstn_skipn (Z.to_nat limit) l) in Hl.
    apply in_app_iff in Hl. destruct Hl as [Hl | Hl]; [now left | right].
    intros x Hx.
    apply (sorted_app_inv Outranks (firstn (Z.to_nat limit) l)
             (skipn (Z.to_nat limit) l)); auto.
    rewrite firstn_skipn. apply order_by_money_clicks_sorted.
Qed.

Lemma leaderboard_statement_is_top_witness :
  run_query (SelectLeaderboard 1) 1000 [alice_row; bob_row] =
    inr (None, map (leaderboard_columns 1000) (page 1 [alice_row; bob_row]))
  /\ (forall r, In r (page 1 [alice_row; bob_row]) ->
                In r [alice_row; bob_row] /\ 0 < Row.total_money r)
  /\ StronglySorted Outranks (page 1 [alice_row; bob_row])
  /\ List.length (page 1 [alice_row; bob_row]) =
     Nat.min (Z.to_nat 1) (List.length (population [alice_row; bob_row]))
  /\ (forall r, In r (population [alice_row; bob_row]) ->
                In r (page 1 [alice_row; bob_row])
                \/ forall x, In x (page 1 [alice_row; bob_row]) ->
                             Outranks x r).
Proof.
  apply (leaderboard_statement_is_top 1 1000 [alice_row; bob_row]). lia.
Defined.



(** ** The rank statement *)

Lemma filter_length_permutation {A : Type} (f : A -> bool) l l' :
  Permutation l l' ->
  List.length (filter f l) = List.length (filter f l').
Proof.
  induction 1 as [| x l l' _ IH | x y l | l l' l'' _ IH1 _ IH2]; simpl.
  - reflexivity.
  - destruct (f x); simpl; now rewrite IH.
  - destruct (f x), (f y); reflexivity.
  - now rewrite IH1.
Qed.

Lemma beats_not_outranked r x :
  Outranks r x -> beats r x = false.
Proof.
  unfold Outranks, Before. rewrite outranks_spec. unfold beats.
  intros H. apply Bool.orb_false_iff. split.
  - apply Z.ltb_ge. lia.
  - apply Bool.andb_false_iff.
    destruct (Z.eq_dec (Row.total_money r) (Row.total_money x)) as [E | E].
    + right. apply Z.ltb_ge. lia.
    + left. now apply Z.eqb_neq.
Qed.

Lemma beats_outranking r x :
  Outranks x r ->
  (Row.total_money x = Row.total_money r ->
   Row.total_clicks x = Row.total_clicks r -> False) ->
  beats r x = true.
Proof.
  unfold Outranks, Before. rewrite outranks_spec. unfold beats.
  intros H Hne. apply Bool.orb_true_iff.
  destruct (Z.eq_dec (Row.total_money r) (Row.total_money x)) as [E | E].
  - right. apply Bool.andb_true_iff. split; [now apply Z.eqb_eq|].
    apply Z.ltb_lt. lia.
  - left. apply Z.ltb_lt. lia.
Qed.

(** In a sorted list without ties and without repeated rows, the rows that
    beat the one at position [i] are the [i] rows before it. *)
Lemma beaten_by_those_before l i r :
  StronglySorted Outranks l ->
  NoDup l ->
  no_ties l ->
  nth_error l i = Some r ->
  List.length (filter (beats r) l) = i.
Proof.
  revert i. induction l as [|x l IH]; intros [|i] Hs Hnd Hties Hnth;
    simpl in Hnth; try discriminate;
    inversion Hs as [|? ? Hs' Hx]; subst;
    inversion Hnd as [|? ? Hxl Hnd']; subst;
    rewrite Forall_forall in Hx.
  - injection Hnth as ->. simpl.
    replace (beats r r) with false
      by (symmetry; unfold beats; rewrite !Z.ltb_irrefl, Bool.andb_false_r;
          reflexivity).
    rewrite filter_none; [reflexivity|].
    intros y Hy. apply beats_not_outranked. now apply Hx.
  - assert (Hr : In r l) by (eapply nth_error_In; exact Hnth).
    simpl. rewrite beats_outranking.
    + simpl. f_equal. apply IH; auto.
      intros a b Ha Hb. apply Hties; now right.
    + now apply Hx.
    + intros Hm Hc. apply Hxl.
      rewrite (Hties x r (or_introl eq_refl) (or_intror Hr) Hm Hc).
      exact Hr.
Qed.

Lemma In_nth_error_Some {A : Type} (l : list A) x :
  In x l -> exists i, nth_error l i = Some x.
Proof. apply In_nth_error. Qed.

(** X15.  With a unique key and no two ranked players equal on both money
    and clicks, the statement of lines 294-306 returns one row for a ranked
    player, and its rank is one more than the number of ranked players with
    more money, or as much money and more clicks. *)
Theorem rank_counts_better_players now t r :
  unique_ids t ->
  no_ties (population t) ->
  In r (population t) ->
  run_query (SelectRank (Row.player_id r)) now t =
  inr (None,
       [[("rank",
          PyInt (1 + Z.of_nat (List.length (filter (beats r) (population t)))));
         ("total_money", PyInt (Row.total_money r))]]).
Proof.
  intros Hu Hties Hr.
  set (l := order_by_money_clicks (population t)).
  assert (Hl : In r l) by (apply In_order_by; exact Hr).
  destruct (In_nth_error_Some _ _ Hl) as [i Hi].
  pose proof (unique_ranked t Hu) as Hnd. fold l in Hnd.
  simpl. fold l. rewrite (enumerate_unique l 1 i r Hnd Hi). simpl.
  unfold rank_columns. simpl.
  rewrite (filter_length_permutation (beats r) (population t) l)
    by (apply Permutation_sym, order_by_permutation).
  rewrite (beaten_by_those_before l i r); [reflexivity | | | | exact Hi].
  - apply order_by_money_clicks_sorted.
  - now apply NoDup_map_inv in Hnd.
  - intros a b Ha Hb. apply Hties.
    + now apply (proj1 (In_order_by _ _ _)) in Ha.
    + now apply (proj1 (In_order_by _ _ _)) in Hb.
Qed.

Lemma rank_counts_better_players_witness :
  run_query (SelectRank (Row.player_id alice_row)) 0 [alice_row; bob_row] =
  inr (None,
       [[("rank",
          PyInt (1 + Z.of_nat
                       (List.length
                          (filter (beats alice_row)
                             (population [alice_row; bob_row])))));
         ("total_money", PyInt (Row.total_money alice_row))]]).
Proof.
  apply (rank_counts_better_players 0 [alice_row; bob_row] alice_row).
  - unfold unique_ids. simpl.
    repeat constructor; simpl; intuition discriminate.
  - intros a b Ha Hb Hm Hc. simpl in Ha, Hb.
    destruct Ha as [<- | [<- | []]]; destruct Hb as [<- | [<- | []]];
      try reflexivity; simpl in Hm; discriminate.
  - simpl. now left.
Defined.

(** X16.  The two statements number the players alike: with a unique key,
    the row at position [i] of the leaderboard statement's page is given
    rank [i + 1] by the rank statement, for populations without ties on
    both keys (where SQL fixes the order). *)
Theorem statements_rank_alike now t limit i r :
  unique_ids t ->
  no_ties (population t) ->
  nth_error (page limit t) i = Some r ->
  run_query (SelectRank (Row.player_id r)) now t =
  inr (None,
       [[("rank", PyInt (1 + Z.of_nat i));
         ("total_money", PyInt (Row.total_money r))]]).
Proof.
  intros Hu _ Hi. apply nth_error_firstn_Some in Hi.
  simpl. rewrite (enumerate_unique _ 1 i r (unique_ranked t Hu) Hi).
  reflexivity.
Qed.

Lemma statements_rank_alike_witness :
  run_query (SelectRank (Row.player_id alice_row)) 0 [alice_row; bob_row] =
  inr (None,
       [[("rank", PyInt (1 + Z.of_nat 1));
         ("total_money", PyInt (Row.total_money alice_row))]]).
Proof.
  apply (statements_rank_alike 0 [alice_row; bob_row] 10 1 alice_row).
  - unfold unique_ids. simpl.
    repeat constructor; simpl; intuition discriminate.
  - intros a b Ha Hb Hm Hc. simpl in Ha, Hb.
    destruct Ha as [<- | [<- | []]]; destruct Hb as [<- | [<- | []]];
      try reflexivity; simpl in Hm; discriminate.
  - reflexivity.
Defined.

